(** * ao: dry runs, source loading and the messenger's wiring

    A shallow embedding of three modules of the repository:

    - [servers/cu/src/domain/dryRun.js]          (module [DryRun])
    - [sdk/src/lib/readState/load-src.js]        (module [LoadSrc])
    - [servers/mu-legacy/src/domain/index.js]    (module [MuDomain])

    JavaScript values are an inductive type whose objects are finite maps
    from property names to values ([gmap string value]); the [zod] schemas
    the sources build are a small syntax with a [parse] function; the
    [hyper-async] pipelines are a state-and-error monad that also records
    every call made to an injected collaborator. *)

From stdpp Require Import gmap strings list fin_maps pretty.
From Stdlib Require Import ZArith NArith Ascii.

Set Warnings "-register-all,-notation-for-abbreviation".

(** ** JavaScript values *)

Module Js.

(** One entry of a [ZodError]: the issue code, the path to the offending
    value and the message. *)
Record issue := Issue {
  issue_code : string;
  issue_path : list string;
  issue_message : string
}.

(** What a promise can reject with, or a function throw. *)
Inductive error :=
| ZodError (issues : list issue)
| TypeError (msg : string)
| HostError (msg : string).

(** A number is held as the string [String(n)] makes of it (its digits,
    [NaN], [Infinity]), which determines it up to the sign of zero: the
    sources test numbers for truthiness and print them, and do nothing
    else with them. An [ArrayBuffer] is its bytes; a [Readable] built from
    a generator is the items the generator yields and the error it ends
    with, if it throws. A function is held as its source text: the data
    the sources handle holds none, but a curried function of [ramda]
    returns itself when it is applied to [ramda]'s placeholder. *)
Inductive value :=
| VUndefined
| VNull
| VBool (b : bool)
| VNum (rendering : string)
| VStr (s : string)
| VBuffer (bytes : list Byte.byte)
| VArr (items : list value)
| VObj (props : gmap string value)
| VStream (yielded : list value) (failure : option error)
| VFunction (source : string).

Definition describe (e : error) : string :=
  match e with
  | ZodError _ => "ZodError"
  | TypeError msg | HostError msg => msg
  end.

Inductive result (A : Type) :=
| Ok (a : A)
| Throw (e : error).
Arguments Ok {A} a.
Arguments Throw {A} e.

Definition result_bind {A B} (r : result A) (f : A → result B) : result B :=
  match r with
  | Ok a => f a
  | Throw e => Throw e
  end.

#[global] Instance result_mbind : MBind result := λ A B f r, result_bind r f.

Definition is_undefined (v : value) : bool :=
  match v with
  | VUndefined => true
  | _ => false
  end.

(** [!!v] *)
Definition truthy (v : value) : bool :=
  match v with
  | VUndefined | VNull => false
  | VBool b => b
  | VNum rendering =>
      negb (String.eqb rendering "0" || String.eqb rendering "NaN")
  | VStr s => negb (String.eqb s "")
  | VBuffer _ | VArr _ | VObj _ | VStream _ _ | VFunction _ => true
  end.

(** The values that are no objects. *)
Definition primitive (v : value) : bool :=
  match v with
  | VUndefined | VNull | VBool _ | VNum _ | VStr _ => true
  | VBuffer _ | VArr _ | VObj _ | VStream _ _ | VFunction _ => false
  end.

(** [`${v}`], the string a template literal makes of a value. *)
Fixpoint to_string (v : value) : string :=
  match v with
  | VUndefined => "undefined"
  | VNull => "null"
  | VBool true => "true"
  | VBool false => "false"
  | VNum rendering => rendering
  | VStr s => s
  | VBuffer _ => "[object ArrayBuffer]"
  | VArr items =>
      let element x :=
        match x with
        | VUndefined | VNull => ""
        | _ => to_string x
        end in
      (fix join (l : list value) : string :=
         match l with
         | [] => ""
         | [x] => element x
         | x :: rest => element x +:+ "," +:+ join rest
         end) items
  | VObj _ | VStream _ _ => "[object Object]"
  | VFunction source => source
  end.

(** *** Strings

    A string is held in UTF-8, and JavaScript counts and indexes it by
    UTF-16 code unit: a character of one to three bytes is one unit, a
    character of four bytes is two, a pair of surrogates, each held as the
    three bytes its code takes. *)

Definition continues (c : ascii) : bool :=
  (128 <=? N_of_ascii c)%N && (N_of_ascii c <? 192)%N.

(** The bytes that follow the first byte of a character. *)
Definition following (c : ascii) : nat :=
  let n := N_of_ascii c in
  if (n <? 192)%N then 0
  else if (n <? 224)%N then 1
  else if (n <? 240)%N then 2
  else 3.

Definition threeBytes (unit : N) : list ascii :=
  [ascii_of_N (224 + N.shiftr unit 12);
   ascii_of_N (128 + N.land (N.shiftr unit 6) 63);
   ascii_of_N (128 + N.land unit 63)].

(** The code units of one character, from its bytes. *)
Definition codeUnits (bytes : list ascii) : list (list ascii) :=
  match bytes with
  | [b0; b1; b2; b3] =>
      let code :=
        (N.shiftl (N.land (N_of_ascii b0) 7) 18
         + N.shiftl (N.land (N_of_ascii b1) 63) 12
         + N.shiftl (N.land (N_of_ascii b2) 63) 6
         + N.land (N_of_ascii b3) 63)%N in
      let rest := (code - 65536)%N in
      [threeBytes (55296 + N.shiftr rest 10);
       threeBytes (56320 + N.land rest 1023)]
  | _ => [bytes]
  end.

(** The bytes of a string, character by character: [pending] is the
    character being read, and [need] the bytes it still lacks. A sequence
    that is not UTF-8 is cut where it breaks. *)
Fixpoint units (pending : list ascii) (need : nat) (l : list ascii)
  : list (list ascii) :=
  match l with
  | [] =>
      match pending with
      | [] => []
      | _ => [pending]
      end
  | c :: rest =>
      let start :=
        match following c with
        | 0 => [c] :: units [] 0 rest
        | more => units [c] more rest
        end in
      match need with
      | 0 => start
      | S less =>
          if continues c
          then match less with
               | 0 => codeUnits (pending ++ [c]) ++ units [] 0 rest
               | _ => units (pending ++ [c]) less rest
               end
          else pending :: start
      end
  end.

Definition characters (s : string) : list value :=
  (λ bytes, VStr (String.string_of_list_ascii bytes))
    <$> units [] 0 (String.list_ascii_of_string s).

(** [s.length] *)
Definition string_length (s : string) : nat := length (characters s).

(** *** Objects *)

(** The index properties of an array or of a string. *)
Definition indexed (l : list value) : gmap string value :=
  list_to_map (imap (λ i x, (pretty i, x)) l).

(** The name of an index property starts with a digit. *)
Definition numeric (s : string) : bool :=
  match s with
  | String c _ => (48 <=? N_of_ascii c)%N && (N_of_ascii c <? 58)%N
  | "" => false
  end.

(** The own enumerable properties of a value: what [{...v}] copies. *)
Definition spread (v : value) : gmap string value :=
  match v with
  | VObj props => props
  | VArr items => indexed items
  | VStr s => indexed (characters s)
  | _ => ∅
  end.

(** An object literal [{...base, k1: v1, ..., kn: vn}]: the properties are
    assigned in the order they are written, a later one replacing an
    earlier one of the same name. *)
Definition literal (base : gmap string value) (l : list (string * value))
  : gmap string value :=
  foldl (λ o kv, <[kv.1 := kv.2]> o) base l.

Definition obj (l : list (string * value)) : value := VObj (literal ∅ l).

(** [Readable.from(generator())] for a generator with a single [yield]:
    the stream emits what the generator yields and completes, or fails with
    what the generator throws. *)
Definition Readable_from (generator : result value) : value :=
  match generator with
  | Ok item => VStream [item] None
  | Throw e => VStream [] (Some e)
  end.

(** [o[k]] on an object literal. *)
Definition get (o : gmap string value) (k : string) : value :=
  default VUndefined (o !! k).

(** [v.k], for a name that no prototype defines (the sources read no
    other): reading a property of [undefined] or [null] throws. *)
Definition member (v : value) (k : string) : result value :=
  match v with
  | VUndefined | VNull =>
      Throw (TypeError ("Cannot read properties of " +:+ to_string v
                        +:+ " (reading '" +:+ k +:+ "')"))
  | VObj props => Ok (get props k)
  | VArr items =>
      Ok (if String.eqb k "length" then VNum (pretty (length items))
          else get (indexed items) k)
  | VStr s =>
      Ok (if String.eqb k "length" then VNum (pretty (string_length s))
          else get (indexed (characters s)) k)
  | VBuffer bytes =>
      Ok (if String.eqb k "byteLength" then VNum (pretty (length bytes))
          else VUndefined)
  | VBool _ | VNum _ | VStream _ _ | VFunction _ => Ok VUndefined
  end.

(** *** The functions of [ramda] the sources use *)

(** [ramda]'s placeholder, [R.__]: an object whose
    ['@@functional/placeholder'] is [true]. A curried function that is
    given the placeholder for its last argument waits for that argument
    still: it returns itself. *)
Definition placeholder (v : value) : bool :=
  match v with
  | VObj props =>
      match props !! "@@functional/placeholder" with
      | Some (VBool true) => true
      | _ => false
      end
  | _ => false
  end.

(** The function [_curry1] returns, which is what a function of two
    arguments is once it has its first: its source text, line by line. *)
Definition lines (l : list string) : string :=
  foldr (λ line rest,
           match rest with
           | "" => line
           | _ => line +:+ String (ascii_of_nat 10) rest
           end) "" l.

Definition f1 : value :=
  VFunction
    (lines ["function f1(a) {";
            "    if (arguments.length === 0 || _isPlaceholder(a)) {";
            "      return f1;";
            "    } else {";
            "      return fn.apply(this, arguments);";
            "    }";
            "  }"]).

(** [prop(k, v)]: [undefined] where [v] has no properties. *)
Definition prop (k : string) (v : value) : value :=
  match member v k with
  | Ok x => x
  | Throw _ => VUndefined
  end.

(** [path(ks, v)] *)
Definition path (ks : list string) (v : value) : value :=
  foldl (λ acc k, prop k acc) v ks.

(** [omit(names)(v)]: a fresh object to which the properties of [v], but
    those named, are assigned one by one; the assignment of a property
    named [__proto__] adds none. *)
Definition omit (names : list string) (v : value) : value :=
  if placeholder v then f1
  else VObj (foldr delete (delete "__proto__" (spread v)) names).

(** [pick(names, v)]: a fresh object with the named properties [v] has. *)
Definition pick (names : list string) (v : value) : value :=
  VObj (foldr (λ k acc,
                 match spread v !! k with
                 | Some x => <[k := x]> acc
                 | None => acc
                 end) ∅ names).

(** [assoc(k, x, o)]: a copy of the properties of [o], to which [x] is
    assigned under the name [k]; the assignment of a value that is no
    object to [__proto__] changes nothing. *)
Definition assoc (k : value) (x : value) (o : value) : value :=
  VObj (if String.eqb (to_string k) "__proto__" then spread o
        else <[to_string k := x]> (spread o)).

(** [reduce(f, acc, list)] on an array, with a step that may throw.
    [ramda] runs the step as a transducer: as soon as the accumulator the
    step returns is truthy and has a truthy ['@@transducer/reduced'], the
    loop stops, and the result is the ['@@transducer/value'] of that
    accumulator. *)
Fixpoint reduce (f : value → value → result value) (acc : value)
    (l : list value) : result value :=
  match l with
  | [] => Ok acc
  | x :: rest =>
      result_bind (f acc x)
        (λ acc', if truthy acc' && truthy (prop "@@transducer/reduced" acc')
                 then Ok (prop "@@transducer/value" acc')
                 else reduce f acc' rest)
  end.

End Js.

(** ** The [zod] schemas of the sources *)

Module Zod.
Import Js.

(** What a schema makes of an input: the parsed value, or the issues. *)
Inductive parsed :=
| Valid (v : value)
| Invalid (issues : list issue).

(** What an object schema does with the keys its shape does not name:
    [z.object] drops them, [.passthrough()] keeps them, [.strict()] refuses
    them. *)
Inductive unknownKeys := strip | passthrough | strict.

(** [custom] stands for the schemas of declarations that are not among the
    sources. *)
Inductive schema :=
| any
| undefined
| string (min : option (nat * String.string))
| refine (inner : schema) (check : value → bool) (msg : String.string)
| array (element : schema)
| object (shape : list (String.string * schema)) (unknown : unknownKeys)
| custom (run : value → parsed).

Definition parsedType (v : value) : String.string :=
  match v with
  | VUndefined => "undefined"
  | VNull => "null"
  | VBool _ => "boolean"
  | VNum rendering => if String.eqb rendering "NaN" then "nan" else "number"
  | VStr _ => "string"
  | VArr _ => "array"
  | VBuffer _ | VObj _ | VStream _ _ => "object"
  | VFunction _ => "function"
  end.

(** The properties [zod] reads of what it takes for an object. (A stream
    has properties of its own, its state, that the model does not hold;
    the sources parse none.) *)
Definition properties (v : value) : option (gmap String.string value) :=
  match v with
  | VObj props => Some props
  | VBuffer _ | VStream _ _ => Some ∅
  | _ => None
  end.

Definition invalid_type (expected : String.string) (v : value) : issue :=
  Issue "invalid_type" []
    (if is_undefined v then "Required"
     else "Expected " +:+ expected +:+ ", received " +:+ parsedType v).

Definition under (k : String.string) (i : issue) : issue :=
  Issue (issue_code i) (k :: issue_path i) (issue_message i).

(** The keys of an input object that a shape does not name; those whose
    value is [undefined] are not copied to the output, and neither is a
    key named [__proto__]. *)
Definition extraKeys (shape : list (String.string * schema))
    (props : gmap String.string value) : gmap String.string value :=
  map_imap (λ k x, if bool_decide (k ∈ shape.*1) then None else Some x) props.

Definition defined (props : gmap String.string value)
  : gmap String.string value :=
  map_imap (λ k x, if is_undefined x || String.eqb k "__proto__"
                   then None else Some x) props.

(** The issues of one failed element, before those of the elements after
    it. *)
Definition failed (here : list issue) (later : option (list issue))
  : option (list issue) :=
  Some (here ++ default [] later).

(** The elements of an array, each parsed by [element]; [i] is the index
    of the first. *)
Definition parseElements (element : value → parsed)
  : nat → list value → list value * option (list issue) :=
  fix each (i : nat) (l : list value) :=
    match l with
    | [] => ([], None)
    | x :: rest =>
        let '(out, issues) := each (S i) rest in
        match element x with
        | Valid y => (y :: out, issues)
        | Invalid here => (out, failed (under (pretty i) <$> here) issues)
        end
    end.

(** The keys of a shape, each parsed on the property of that name; the
    output has the key when the parsed value is not [undefined] or the
    input had the key. *)
Definition parseFields {S} (parseWith : S → value → parsed)
    (props : gmap String.string value)
  : list (String.string * S) → gmap String.string value * option (list issue) :=
  fix fields (shape : list (String.string * S)) :=
    match shape with
    | [] => (∅, None)
    | (k, field) :: rest =>
        let '(out, issues) := fields rest in
        match parseWith field (get props k) with
        | Valid y =>
            (if negb (is_undefined y) || bool_decide (is_Some (props !! k))
             then <[k := y]> out else out, issues)
        | Invalid here => (out, failed (under k <$> here) issues)
        end
    end.

(** [schema.safeParse(v)]. The issues of all the keys of an object, and of
    all the elements of an array, are reported together. *)
Fixpoint safeParse (s : schema) (v : value) : parsed :=
  match s with
  | any => Valid v
  | undefined =>
      if is_undefined v then Valid v else Invalid [invalid_type "undefined" v]
  | string min =>
      match v with
      | VStr str =>
          match min with
          | Some (n, msg) =>
              if (n <=? string_length str)%nat then Valid v
              else Invalid [Issue "too_small" [] msg]
          | None => Valid v
          end
      | _ => Invalid [invalid_type "string" v]
      end
  | refine inner check msg =>
      match safeParse inner v with
      | Valid x => if check x then Valid x else Invalid [Issue "custom" [] msg]
      | Invalid issues => Invalid issues
      end
  | array element =>
      match v with
      | VArr items =>
          let '(out, issues) := parseElements (safeParse element) 0 items in
          match issues with
          | None => Valid (VArr out)
          | Some issues => Invalid issues
          end
      | _ => Invalid [invalid_type "array" v]
      end
  | object shape unknown =>
      match properties v with
      | Some props =>
          let '(out, issues) := parseFields safeParse props shape in
          let extra := extraKeys shape props in
          let issues :=
            match unknown with
            | strict =>
                if bool_decide (extra = ∅) then issues
                else Some (default [] issues
                           ++ [Issue "unrecognized_keys" []
                                 "Unrecognized key(s) in object"])
            | _ => issues
            end in
          match issues with
          | None =>
              Valid (VObj match unknown with
                          | passthrough => out ∪ defined extra
                          | _ => out
                          end)
          | Some issues => Invalid issues
          end
      | None => Invalid [invalid_type "object" v]
      end
  | custom run => run v
  end.

(** [schema.parse(v)]: the parsed value, or a thrown [ZodError]. *)
Definition parse (s : schema) (v : value) : result value :=
  match safeParse s v with
  | Valid x => Ok x
  | Invalid issues => Throw (ZodError issues)
  end.

Fixpoint field (k : String.string) (shape : list (String.string * schema))
  : option schema :=
  match shape with
  | [] => None
  | (k', s) :: rest => if String.eqb k k' then Some s else field k rest
  end.

(** [base.extend(augmentation)] on shapes: the keys of [base] in their
    order, with the schemas [augmentation] gives them, then the new keys. *)
Definition extend (base augmentation : list (String.string * schema))
  : list (String.string * schema) :=
  ((λ ks : String.string * schema,
      (ks.1, default ks.2 (field ks.1 augmentation))) <$> base)
  ++ filter (λ ks : String.string * schema, ks.1 ∉ base.*1) augmentation.

End Zod.

(** ** [hyper-async] pipelines

    An [Async] is run against the state of the outside world; it ends
    resolved or rejected, and leaves the world as the collaborators it
    called left it. Every call to an injected collaborator is recorded, in
    order, with the argument it was given. *)

Module Async.
Import Js.

Record call := Call {
  callee : string;
  argument : value
}.

Record state (W : Type) := State {
  world : W;
  calls : list call
}.
Arguments State {W} world calls.
Arguments world {W} s.
Arguments calls {W} s.

Definition Async (W A : Type) : Type := state W → result A * state W.

Definition Resolved {W A} (a : A) : Async W A := λ s, (Ok a, s).
Definition Rejected {W A} (e : error) : Async W A := λ s, (Throw e, s).

(** [m.chain(f)] *)
Definition chain {W A B} (m : Async W A) (f : A → Async W B) : Async W B :=
  λ s, match m s with
       | (Ok a, s') => f a s'
       | (Throw e, s') => (Throw e, s')
       end.

(** An expression that may throw inside the callback of a [chain] or of a
    [map]: the pipeline is rejected with what was thrown. *)
Definition attempt {W A} (r : result A) : Async W A := λ s, (r, s).

(** [m.map(f)] *)
Definition map {W A B} (m : Async W A) (f : A → result B) : Async W B :=
  chain m (λ a, attempt (f a)).

(** A collaborator of the environment, applied to its argument. *)
Definition invoke {W A} (name : string) (f : value → W → result A * W)
    (x : value) : Async W A :=
  λ s, let '(r, w) := f x (world s) in
       (r, State w (calls s ++ [Call name x])).

(** [fromPromise(f)(x)]: the promise [f(x)] as an [Async]. *)
Definition fromPromise {W A} (promise : W → result A * W) : Async W A :=
  λ s, let '(r, w) := promise (world s) in (r, State w (calls s)).

(** The calls made to one collaborator. *)
Definition callsTo (name : string) (l : list call) : list value :=
  argument <$> filter (λ c, callee c = name) l.

End Async.

Declare Scope async_scope.
Delimit Scope async_scope with async.
Notation "'await' x := m 'in' k" := (Async.chain m (λ x, k))
  (at level 10, x name, m at level 100, k at level 200,
   format "'await'  x  :=  m  'in' '//' k") : async_scope.
Notation "'try' x := r 'in' k" := (Async.chain (Async.attempt r) (λ x, k))
  (at level 10, x name, r at level 100, k at level 200,
   format "'try'  x  :=  r  'in' '//' k") : async_scope.

(** ** [servers/cu/src/domain/dryRun.js] *)

Module DryRun.
Import Js Async.
Local Open Scope async_scope.

(** The argument of the function [dryRunWith] returns. *)
Record args := Args {
  processId : value;
  messageTxId : value;
  dryRun : value
}.

Section dryRunWith.
Context {W : Type}.

(** [messageSchema] is declared in [model.js], which is not among the
    sources: the shape and the unknown-keys policy of the schema, and
    those of its [message] field, are parameters. *)
Variable messageSchema_shape : list (string * Zod.schema).
Variable messageSchema_unknown : Zod.unknownKeys.
Variable message_shape : list (string * Zod.schema).
Variable message_unknown : Zod.unknownKeys.

(** The collaborators [dryRunWith] builds from its environment. *)
Variable loadMessageMeta : value → W → result value * W.
Variable loadModule : value → W → result value * W.
Variable readState : value → W → result value * W.
Variable evaluate : value → W → result value * W.

Definition dryRunMessageSchema : Zod.schema :=
  Zod.object
    (Zod.extend messageSchema_shape
       [("message",
         Zod.object
           (Zod.extend message_shape
              [("Id", Zod.undefined);
               ("Owner", Zod.undefined);
               ("From", Zod.undefined)])
           message_unknown)])
    messageSchema_unknown.

(** The properties the object literal of the generator sets after the
    spread of the caller's payload. *)
Definition overridden : list string :=
  ["Id"; "Owner"; "From"; "Target"; "Timestamp"; "Block-Height"; "Cron";
   "Read-Only"].

(** The first [chain]: where to evaluate up to. *)
Definition messageMeta (a : args) : Async W value :=
  if truthy (messageTxId a)
  then invoke "loadMessageMeta" loadMessageMeta
         (obj [("processId", processId a); ("messageTxId", messageTxId a)])
  else Resolved
         (obj [("processId", processId a);
               ("to", VUndefined);
               ("ordinate", VUndefined)]).

(** The second [chain]: read up to that point. *)
Definition readUpTo (res : value) : Async W value :=
  try pid := member res "processId" in
  try timestamp := member res "timestamp" in
  try nonce := member res "nonce" in
  invoke "readState" readState
    (obj [("processId", pid);
          ("to", timestamp);
          ("ordinate", VStr (to_string nonce));
          ("cron", VUndefined);
          ("exact", VBool true)]).

(** Load the module unless [readState] attached it. *)
Definition withModule (ctx : value) : Async W value :=
  try module := member ctx "module" in
  if negb (truthy module)
  then invoke "loadModule" loadModule ctx
  else Resolved ctx.

(** The object literal the generator hands to the schema. *)
Definition dryRunInput (a : args) (readStateRes : value) : result value :=
  ordinate ← member readStateRes "ordinate";
  from ← member readStateRes "from";
  fromBlockHeight ← member readStateRes "fromBlockHeight";
  owner ← member readStateRes "owner";
  tags ← member readStateRes "tags";
  Ok (obj
    [("noSave", VBool true);
     ("deepHash", VUndefined);
     ("cron", VUndefined);
     ("ordinate", ordinate);
     ("name", VStr "Dry Run Message");
     ("message",
      VObj (literal (spread (dryRun a))
        [("Id", VUndefined);
         ("Owner", VUndefined);
         ("From", VUndefined);
         ("Target", processId a);
         ("Timestamp", from);
         ("Block-Height", fromBlockHeight);
         ("Cron", VBool false);
         ("Read-Only", VBool true)]));
     ("AoGlobal",
      obj [("Process",
            obj [("Id", processId a); ("Owner", owner); ("Tags", tags)])])]).

(** The generator [dryRunMessage]: its one [yield]. *)
Definition dryRunMessage (a : args) (readStateRes : value) : result value :=
  input ← dryRunInput a readStateRes;
  Zod.parse dryRunMessageSchema input.

(** The third [chain]: inject the dry-run message. *)
Definition inject (a : args) (readStateRes : value) : Async W value :=
  await ctx := withModule readStateRes in
  invoke "evaluate" evaluate
    (VObj (literal (spread ctx)
       [("messages", Readable_from (dryRunMessage a readStateRes))])).

Definition dryRunWith (a : args) : Async W value :=
  map
    (map
       (await res := messageMeta a in
        await readStateRes := readUpTo res in
        inject a readStateRes)
       (λ res, member res "output"))
    (λ output, Ok (omit ["Memory"] output)).

(** The stores a sequence of dry runs goes through. *)
Definition dryRuns (l : list args) (w : W) : W :=
  foldl (λ w a, world (dryRunWith a (State w [])).2) w l.

(** The schema hands the [noSave] flag of a message on. *)
Definition keepsNoSave : Prop :=
  ∀ input m,
    Zod.parse dryRunMessageSchema input = Ok m →
    prop "noSave" input = VBool true →
    truthy (prop "noSave" m) = true.

End dryRunWith.

End DryRun.

(** ** [sdk/src/lib/readState/load-src.js]

    [logger.tap(format)] logs its argument and returns it: it is the
    identity of the pipelines below. *)

Module LoadSrc.
Import Js Async.
Local Open Scope async_scope.

Definition ownerSchema : Zod.schema :=
  Zod.object [("address", Zod.string None)] Zod.strip.

Definition tagSchema : Zod.schema :=
  Zod.object [("name", Zod.string None); ("value", Zod.string None)] Zod.strip.

Definition tagsSchema : Zod.schema := Zod.array tagSchema.

Definition transactionSchema : Zod.schema :=
  Zod.object [("owner", ownerSchema); ("tags", tagsSchema)] Zod.strip.

Definition srcSchema : Zod.schema :=
  Zod.object
    [("owner", Zod.string None);
     ("src", Zod.refine Zod.any truthy "contract source must be defined")]
    Zod.passthrough.

(** [z.string().min(1, { message })] of [getContractMetaWith]. *)
Definition contractSrcSchema : Zod.schema :=
  Zod.string (Some (1, "Contract-Src tag was not present on the transaction")).

(** [(a, t) => assoc(t.name, t.value, a)] *)
Definition byName (a t : value) : result value :=
  name ← member t "name";
  value ← member t "value";
  Ok (assoc name value a).

(** [reduce((a, t) => assoc(t.name, t.value, a), {})], on the array the
    schema returns for the tags. *)
Definition tagsToObject (tags : value) : result value :=
  match tags with
  | VArr items => reduce byName (VObj ∅) items
  | _ => Throw (TypeError "reduce: list must be array or iterable")
  end.

(** The [srcId] of the spec [applySpec] is given: the [pipe] from the tags
    to the checked value of the Contract-Src tag. *)
Definition srcIdOf (tx : value) : result value :=
  o ← tagsToObject (prop "tags" tx);
  Zod.parse contractSrcSchema (prop "Contract-Src" o).

Definition contractMeta (tx : value) : result value :=
  srcId ← srcIdOf tx;
  Ok (obj [("srcId", srcId); ("owner", path ["owner"; "address"] tx)]).

(** A transaction as [transactionSchema] returns it: the address of the
    owner, and the tags as pairs of a name and a value. *)
Definition tag (t : string * string) : value :=
  obj [("name", VStr t.1); ("value", VStr t.2)].

Definition transaction (address : string) (tags : list (string * string))
  : value :=
  obj [("owner", obj [("address", VStr address)]);
       ("tags", VArr (tag <$> tags))].

(** The object the [reduce] of [getContractMetaWith] makes of such tags
    when it folds them all. *)
Definition assocTag (o : gmap string value) (t : string * string)
  : gmap string value :=
  if String.eqb t.1 "__proto__" then o else <[t.1 := VStr t.2]> o.

Definition tagsObject (tags : list (string * string)) : gmap string value :=
  foldl assocTag ∅ tags.

(** A tag at which the [reduce] stops: its name is
    ['@@transducer/reduced'] and its value is truthy. *)
Definition stops (t : string * string) : bool :=
  String.eqb t.1 "@@transducer/reduced" && negb (String.eqb t.2 "").

(** The tags before the first one that stops the [reduce], if one does. *)
Fixpoint stopped (tags : list (string * string))
  : option (list (string * string)) :=
  match tags with
  | [] => None
  | t :: rest => if stops t then Some [] else cons t <$> stopped rest
  end.

(** The issues of [contractSrcSchema]: on [undefined], and on the empty
    string. *)
Definition required : issue := Zod.invalid_type "string" VUndefined.

Definition notPresent : issue :=
  Issue "too_small" [] "Contract-Src tag was not present on the transaction".

(** The value of the last tag of a name, in the order of the tags. *)
Definition lastTag (name : string) (tags : list (string * string))
  : option string :=
  last (snd <$> filter (λ t, t.1 = name) tags).

Section loadSourceWith.
Context {W Response : Type}.

(** The environment: the two lookups of the store, and the
    [arrayBuffer()] of the response of the second. *)
Variable loadTransactionMeta : value → W → result value * W.
Variable loadTransactionData : value → W → result Response * W.
Variable arrayBuffer : Response → W → result value * W.

Definition getSourceBufferWith (srcId : value) : Async W value :=
  await res := invoke "loadTransactionData" loadTransactionData srcId in
  fromPromise (arrayBuffer res).

Definition getContractMetaWith (id : value) : Async W value :=
  map
    (map
       (map (invoke "loadTransactionMeta" loadTransactionMeta id)
          (Zod.parse transactionSchema))
       (λ tx, Ok (pick ["owner"; "tags"] tx)))
    contractMeta.

Definition loadSourceWith (ctx : value) : Async W value :=
  map
    (try id := member ctx "id" in
     await meta := getContractMetaWith id in
     try owner := member meta "owner" in
     try srcId := member meta "srcId" in
     map (getSourceBufferWith srcId)
       (λ src, Ok (VObj (literal (spread ctx)
                           [("src", src); ("owner", owner)]))))
    (Zod.parse srcSchema).

End loadSourceWith.

End LoadSrc.

(** ** [servers/mu-legacy/src/domain/index.js]

    The module imports its configuration, a logger factory, three clients
    and the four constructors of [lib/main.js], none of which is among
    the sources: they are parameters, over one type [V] of JavaScript
    values. An environment object is the list of its properties, and the
    module is the list of the bindings it exports. *)

Module MuDomain.

Section index.
Variable V : Type.

Variable config_sequencerUrl : V.
Variable createLogger : string → V.

(** [clients/pouchdb.js] *)
Variable pouchDb : string → V.
Variable findLatestTxWith saveTxWith saveMsgWith saveSpawnWith : list (string * V) → V.
Variable updateMsgWith findLatestMsgsWith findLatestSpawnsWith : list (string * V) → V.

(** [clients/cu.js] *)
Variable selectNode result : V.

(** [clients/sequencer.js] *)
Variable findTxWith writeInteractionWith writeContractTxWith : list (string * V) → V.
Variable buildAndSignWith : list V → V.

(** [lib/main.js] *)
Variable initMsgsWith processMsgWith crankMsgsWith processSpawnWith : list (string * V) → V.

Definition logger : V := createLogger "@permaweb/ao/servers/mu".
Definition dbInstance : V := pouchDb "ao-cache".
Definition SEQUENCER_URL : V := config_sequencerUrl.

Definition initMsgs : V :=
  initMsgsWith
    [("selectNode", selectNode);
     ("findLatestCacheTx", findLatestTxWith [("pouchDb", dbInstance)]);
     ("cacheTx", saveTxWith [("pouchDb", dbInstance); ("logger", logger)]);
     ("findSequencerTx", findTxWith [("SEQUENCER_URL", SEQUENCER_URL)]);
     ("writeSequencerTx", writeInteractionWith [("SEQUENCER_URL", SEQUENCER_URL)]);
     ("fetchResult", result);
     ("saveMsg", saveMsgWith [("pouchDb", dbInstance); ("logger", logger)]);
     ("saveSpawn", saveSpawnWith [("pouchDb", dbInstance); ("logger", logger)]);
     ("findLatestMsgs", findLatestMsgsWith [("pouchDb", dbInstance); ("logger", logger)]);
     ("findLatestSpawns", findLatestSpawnsWith [("pouchDb", dbInstance); ("logger", logger)]);
     ("logger", logger)].

Definition processMsg : V :=
  processMsgWith
    [("selectNode", selectNode);
     ("findLatestCacheTx", findLatestTxWith [("pouchDb", dbInstance)]);
     ("cacheTx", saveTxWith [("pouchDb", dbInstance); ("logger", logger)]);
     ("findSequencerTx", findTxWith [("SEQUENCER_URL", SEQUENCER_URL)]);
     ("writeSequencerTx", writeInteractionWith [("SEQUENCER_URL", SEQUENCER_URL)]);
     ("buildAndSign", buildAndSignWith []);
     ("fetchResult", result);
     ("saveMsg", saveMsgWith [("pouchDb", dbInstance); ("logger", logger)]);
     ("saveSpawn", saveSpawnWith [("pouchDb", dbInstance); ("logger", logger)]);
     ("updateMsg", updateMsgWith [("pouchDb", dbInstance); ("logger", logger)]);
     ("findLatestMsgs", findLatestMsgsWith [("pouchDb", dbInstance); ("logger", logger)]);
     ("findLatestSpawns", findLatestSpawnsWith [("pouchDb", dbInstance); ("logger", logger)]);
     ("logger", logger)].

Definition processSpawn : V :=
  processSpawnWith
    [("logger", logger);
     ("writeContractTx", writeContractTxWith [("SEQUENCER_URL", SEQUENCER_URL)])].

Definition crankMsgs : V :=
  crankMsgsWith
    [("processMsg", processMsg);
     ("processSpawn", processSpawn);
     ("logger", logger)].

(** The [export]ed bindings of the module, in the order of the file. *)
Definition exports : list (string * V) :=
  [("initMsgs", initMsgs); ("crankMsgs", crankMsgs)].

(** [import { name } from './domain/index.js'] *)
Definition imported (name : string) : option V :=
  (λ found, found.2.2) <$> list_find (λ binding, binding.1 = name) exports.

End index.

End MuDomain.

(** ** The evaluator, the checkpoint store and [readState], from the
    specification

    Neither [lib/evaluate.js] nor [readState.js] is among the sources; what
    a dry run leaves behind is decided by them. *)

Module Engine.
Import Js Async.

(** Modelled from the spec: the checkpoint store, which is missing from the
    sources. A checkpoint is the state of a process at an ordinate, with
    the module that was loaded for it (§3). *)
Record checkpoint := Checkpoint {
  cp_process : string;
  cp_ordinate : string;
  cp_state : value;
  cp_module : value
}.

(** Modelled from the spec: the state of the checkpoint store, missing
    from the sources: the checkpoints saved so far, oldest first. *)
Definition store : Type := list checkpoint.

(** Modelled from the spec: the [save] of the checkpoint store (§4.1),
    missing from the sources; nothing is ever deleted. *)
Definition save (c : checkpoint) (w : store) : store := w ++ [c].

(** Modelled from the spec: [findLatest] of the checkpoint store (§4.1),
    missing from the sources, asked for an exact ordinate: the checkpoint
    of the process at that ordinate, the one saved last if there are
    several. *)
Definition findExact (pid : string) (n : nat) (w : store)
  : option checkpoint :=
  List.find
    (λ c, String.eqb (cp_process c) pid
          && String.eqb (cp_ordinate c) (pretty n))
    (reverse w).

(** Modelled from the spec: [findLatest] (§4.1) asked for the highest
    ordinate at or below one: the checkpoint, and its ordinate. *)
Fixpoint findLatest (pid : string) (n : nat) (w : store)
  : option (nat * checkpoint) :=
  match findExact pid n w with
  | Some c => Some (n, c)
  | None =>
      match n with
      | 0 => None
      | S below => findLatest pid below w
      end
  end.

Section readState.

(** The module execution host (§6): the module, the state and the message
    give the next state, or an error. *)
Variable transition : value → value → value → result value.

(** Modelled from the spec: the fold of the Evaluator (§4.4), missing from
    the sources. The messages are folded left to right over the starting
    state; on the first message the module fails on, folding halts with
    the state as of the last message processed, and the error. The result
    is that state, the messages folded, and the error if any. *)
Fixpoint fold (module state : value) (messages : list value)
  : value * list value * option error :=
  match messages with
  | [] => (state, [], None)
  | m :: rest =>
      match transition module state m with
      | Ok state' =>
          let '(final, folded, fault) := fold module state' rest in
          (final, m :: folded, fault)
      | Throw e => (state, [], Some e)
      end
  end.

(** Modelled from the spec: the output of an evaluation (§4.4, §7): an
    error of the module is part of the result, not thrown. *)
Definition reported (state : value) (fault : option error) : value :=
  match fault with
  | None => state
  | Some e => VObj (literal (spread state) [("Error", VStr (describe e))])
  end.

(** Modelled from the spec: [evaluateWith] of [lib/evaluate.js], missing
    from the sources. The messages of the context are folded over its
    output (§4.4); a checkpoint is saved at the terminal ordinate when some
    folded message is not flagged [noSave] (§4.4, §4.5 step 4); a stream
    that fails rejects the evaluation. *)
Definition evaluate (ctx : value) (w : store) : result value * store :=
  match prop "messages" ctx with
  | VStream messages failure =>
      let '(state, folded, fault) :=
        fold (prop "module" ctx) (prop "output" ctx) messages in
      let w' :=
        if existsb (λ m, negb (truthy (prop "noSave" m))) folded
        then save (Checkpoint (to_string (prop "id" ctx))
                     (to_string (prop "ordinate" (default VUndefined (last folded))))
                     state (prop "module" ctx)) w
        else w in
      match failure with
      | None =>
          (Ok (VObj (literal (spread ctx) [("output", reported state fault)])),
           w')
      | Some e => (Throw e, w')
      end
  | _ => (Throw (TypeError "messages is not a stream"), w)
  end.

(** Modelled from the spec: the scheduling log (§6), which is missing from
    the sources: the messages of a process, in their order. *)
Variable messages : string → list value.

(** Modelled from the spec: the Module Loader (§4.2) for a process. *)
Variable loadModule : string → result value.

(** Modelled from the spec: the state replay starts from when there is
    no checkpoint (§4.5 step 2). *)
Variable genesis : value.

(** Modelled from the spec: the owner and the tags of a process, and the
    timestamp and the block height of a point, which [readState] returns
    with the result (§4.5 step 5). *)
Variable annotations : string → nat → gmap string value.

(** Modelled from the spec: the Message Source (§4.3). The ordinate of a
    message is its position in the log (§3, glossary). *)
Definition scheduled (pid : string) : list value :=
  imap (λ i m, VObj (<["ordinate" := VStr (pretty (S i))]> (spread m)))
    (messages pid).

(** Modelled from the spec: the point a request asks for: its ordinate
    when it is one of the log, and else the latest (§4.6 step 1). *)
Definition point (pid : string) (x : value) : nat :=
  let latest := length (messages pid) in
  default latest
    (List.find (λ k, String.eqb (pretty k) (to_string (prop "ordinate" x)))
       (seq 0 (S latest))).

(** Modelled from the spec: what [readState] returns (§4.5): the result
    of the evaluation with the metadata, and with the module when one was
    loaded ([dryRun.js], lines 100 to 108: an evaluation that is found in
    the cache is returned without). *)
Definition evaluated (pid : string) (n : nat) (output : value)
  : gmap string value :=
  <["output" := output]>
    (<["ordinate" := VStr (pretty n)]>
       (<["id" := VStr pid]> (annotations pid n))).

Definition answer (pid : string) (n : nat) (output : value)
    (module : option value) : value :=
  VObj match module with
       | Some m => <["module" := m]> (evaluated pid n output)
       | None => delete "module" (evaluated pid n output)
       end.

(** Modelled from the spec: [readStateWith] of [readState.js], missing
    from the sources (§4.5). A checkpoint at the point asked for is
    returned as it is: nothing is replayed and no module is loaded. Else
    the replay starts from the latest checkpoint below the point, with its
    module, or from the genesis state with the module the loader
    resolves; the messages after it, up to the point, are evaluated, which
    saves a checkpoint; the result is returned with the module. *)
Definition readState (x : value) (w : store) : result value * store :=
  let pid := to_string (prop "processId" x) in
  let n := point pid x in
  match findExact pid n w with
  | Some c => (Ok (answer pid n (cp_state c) None), w)
  | None =>
      let start := findLatest pid n w in
      let from := default 0 (fst <$> start) in
      let state := default genesis (cp_state ∘ snd <$> start) in
      match match start with
            | Some (_, c) => Ok (cp_module c)
            | None => loadModule pid
            end with
      | Ok module =>
          match evaluate
                  (obj [("id", VStr pid);
                        ("module", module);
                        ("output", state);
                        ("messages",
                         VStream (take (n - from) (drop from (scheduled pid)))
                           None)]) w with
          | (Ok res, w') =>
              (Ok (answer pid n (prop "output" res) (Some module)), w')
          | (Throw e, w') => (Throw e, w')
          end
      | Throw e => (Throw e, w)
      end
  end.

(** Modelled from the spec: a checkpoint is valid when it holds the state
    that the messages of the log up to its ordinate give from the genesis
    state, with the module of the process (§3). *)
Definition valid (w : store) : Prop :=
  ∀ c, c ∈ w →
    ∃ n, cp_ordinate c = pretty n ∧
         loadModule (cp_process c) = Ok (cp_module c) ∧
         fold (cp_module c) genesis (take n (scheduled (cp_process c)))
         = (cp_state c, take n (scheduled (cp_process c)), None).

(** Modelled from the spec: the evaluation of the log of a process up to
    a point, from the genesis state, as [readState] returns it (§3: the
    state at an ordinate is a function of the genesis state and of the
    messages up to it, and of nothing else). *)
Definition replay (pid : string) (n : nat) : result value :=
  match loadModule pid with
  | Ok module =>
      let '(state, _, fault) :=
        fold module genesis (take n (scheduled pid)) in
      Ok (VObj (delete "module" (evaluated pid n (reported state fault))))
  | Throw e => Throw e
  end.

(** The result of an evaluation as [readState] returns it, whether the
    module is attached or not. *)
Definition evaluation (r : result value) : result value :=
  match r with
  | Ok v => Ok (VObj (delete "module" (spread v)))
  | Throw e => Throw e
  end.

End readState.

(** Modelled from the spec: the lookups of the scheduling log and of the
    content store (§6) read, and write no checkpoint. *)
Definition lookup (f : value → result value) (x : value) (w : store)
  : result value * store :=
  (f x, w).

End Engine.

(** ** A concrete environment

    A message schema in the style of the data model (a message has an id,
    an owner, a sender, a target, a payload, a timestamp and a block
    height), and collaborators that answer from constants: the inputs on
    which the general statements below are run. *)

Module Sample.
Import Js Async.

Definition boolean : Zod.schema :=
  Zod.custom (λ v, match v with
                   | VBool _ => Zod.Valid v
                   | _ => Zod.Invalid [Zod.invalid_type "boolean" v]
                   end).

Definition number : Zod.schema :=
  Zod.custom (λ v, match v with
                   | VNum _ => Zod.Valid v
                   | _ => Zod.Invalid [Zod.invalid_type "number" v]
                   end).

Definition optional (s : Zod.schema) : Zod.schema :=
  Zod.custom (λ v, if is_undefined v then Zod.Valid v else Zod.safeParse s v).

Definition message_shape : list (string * Zod.schema) :=
  [("Id", Zod.string None);
   ("Owner", Zod.string None);
   ("From", Zod.string None);
   ("Target", Zod.string None);
   ("Data", Zod.any);
   ("Tags", Zod.any);
   ("Timestamp", number);
   ("Block-Height", number);
   ("Cron", boolean);
   ("Read-Only", boolean)].

Definition messageSchema_shape : list (string * Zod.schema) :=
  [("noSave", optional boolean);
   ("deepHash", optional (Zod.string None));
   ("cron", optional (Zod.string None));
   ("ordinate", Zod.any);
   ("name", Zod.string None);
   ("message", Zod.object message_shape Zod.strip);
   ("AoGlobal", Zod.any)].

Definition loadMessageMeta (x : value) (w : unit) : result value * unit :=
  (Ok (obj [("processId", prop "processId" x);
            ("timestamp", VNum "1700000000");
            ("nonce", VNum "7")]), w).

(** What [readState] answers from its cache: no module is attached. *)
Definition cached (pid ordinate : value) : value :=
  obj [("id", pid);
       ("owner", VStr "owner-1");
       ("tags", VArr []);
       ("ordinate", ordinate);
       ("from", VNum "1700000000");
       ("fromBlockHeight", VNum "1300000");
       ("output", obj [("Memory", VBuffer [Byte.x01]); ("Output", VStr "")])].

(** What it answers when it evaluated, and attached the module it
    loaded. *)
Definition loaded (pid ordinate : value) : value :=
  VObj (literal (spread (cached pid ordinate)) [("module", VBuffer [Byte.x00])]).

Definition readState (x : value) (w : unit) : result value * unit :=
  (Ok (cached (prop "processId" x) (prop "ordinate" x)), w).

Definition readStateLoaded (x : value) (w : unit) : result value * unit :=
  (Ok (loaded (prop "processId" x) (prop "ordinate" x)), w).

Definition loadModule (ctx : value) (w : unit) : result value * unit :=
  (Ok (VObj (literal (spread ctx) [("module", VBuffer [Byte.x00])])), w).

(** An evaluator that echoes the message it is given. *)
Definition evaluate (ctx : value) (w : unit) : result value * unit :=
  match prop "messages" ctx with
  | VStream [m] None =>
      (Ok (obj [("output", obj [("Memory", VBuffer [Byte.x02]);
                                ("Output", prop "message" m)])]), w)
  | VStream _ (Some e) => (Throw e, w)
  | _ => (Throw (HostError "no messages"), w)
  end.

Definition dryRun (readState : value → unit → result value * unit)
    (a : DryRun.args) : result value * state unit :=
  DryRun.dryRunWith messageSchema_shape Zod.strip message_shape Zod.strip
    loadMessageMeta loadModule readState evaluate a (State () []).

Definition ping : value := obj [("Data", VStr "ping")].

Definition forgedPing : value :=
  obj [("Id", VStr "forged-id");
       ("Owner", VStr "someone-else");
       ("From", VStr "someone-else");
       ("Data", VStr "ping")].

(** A store of three processes: the first names its source twice, the
    second not at all, the third with an empty value. *)
Definition loadTransactionMeta (id : value) (w : unit) : result value * unit :=
  match id with
  | VStr "process-1" =>
      (Ok (obj [("id", id);
                ("owner", obj [("address", VStr "owner-1"); ("key", VStr "k")]);
                ("tags",
                 VArr [LoadSrc.tag ("Contract-Src", "source-1");
                       LoadSrc.tag ("App-Name", "ao");
                       LoadSrc.tag ("Contract-Src", "source-2")])]), w)
  | VStr "process-2" =>
      (Ok (LoadSrc.transaction "owner-2" [("App-Name", "ao")]), w)
  | VStr "process-3" =>
      (Ok (LoadSrc.transaction "owner-3" [("Contract-Src", "")]), w)
  | _ => (Throw (HostError "not found"), w)
  end.

Definition loadTransactionData (id : value) (w : unit)
  : result (list Byte.byte) * unit :=
  match id with
  | VStr "source-2" => (Ok [Byte.x00; Byte.x61; Byte.x73; Byte.x6d], w)
  | _ => (Throw (HostError "not found"), w)
  end.

Definition arrayBuffer (body : list Byte.byte) (w : unit)
  : result value * unit :=
  (Ok (VBuffer body), w).

Definition loadSource (ctx : value) : result value * state unit :=
  LoadSrc.loadSourceWith loadTransactionMeta loadTransactionData arrayBuffer
    ctx (State () []).

Definition forged : DryRun.args :=
  DryRun.Args (VStr "process-1") VUndefined forgedPing.

Definition latest : DryRun.args :=
  DryRun.Args (VStr "process-1") VUndefined ping.

Definition second : DryRun.args :=
  DryRun.Args (VStr "process-2") (VStr "message-1") forgedPing.

Definition atMessage : DryRun.args :=
  DryRun.Args (VStr "process-1") (VStr "message-1") ping.


(** The state of the pipeline of [dryRun atMessage] after [readState], and
    after the module is loaded. *)
Definition afterRead : state unit :=
  State ()
    [Call "loadMessageMeta"
       (obj [("processId", VStr "process-1"); ("messageTxId", VStr "message-1")]);
     Call "readState"
       (obj [("processId", VStr "process-1"); ("to", VNum "1700000000");
             ("ordinate", VStr "7"); ("cron", VUndefined);
             ("exact", VBool true)])].

Definition afterLoad : state unit :=
  State ()
    (calls afterRead
     ++ [Call "loadModule" (cached (VStr "process-1") (VStr "7"))]).

(** The tags of the first process, and what the store holds for an id. *)
Definition twice : list (string * string) :=
  [("Contract-Src", "source-1"); ("App-Name", "ao"); ("Contract-Src", "source-2")].

Definition stored (id : value) : value :=
  match loadTransactionMeta id () with
  | (Ok tx, _) => tx
  | _ => VUndefined
  end.

(** A context to load the source into, and the context with the source. *)
Definition context : value :=
  obj [("id", VStr "process-1"); ("stats", VUndefined); ("from", VNum "3");
       ("owner", VNull)].

Definition withSource : value :=
  obj [("id", VStr "process-1"); ("from", VNum "3");
       ("owner", VStr "owner-1");
       ("src", VBuffer [Byte.x00; Byte.x61; Byte.x73; Byte.x6d])].

(** The messenger's module over the terms that say how a value was
    built. *)
Inductive term :=
| Import (name : string)
| Literal (s : string)
| Apply (function : term) (arguments : list term)
| Object (properties : list (string * term)).

Definition client (name : string) (env : list (string * term)) : term :=
  Apply (Import name) [Object env].

Definition imported (name : string) : option term :=
  MuDomain.imported term (Import "config.sequencerUrl")
    (λ name, Apply (Import "createLogger") [Literal name])
    (λ name, Apply (Import "pouchDbClient.pouchDb") [Literal name])
    (client "pouchDbClient.findLatestTxWith")
    (client "pouchDbClient.saveTxWith")
    (client "pouchDbClient.saveMsgWith")
    (client "pouchDbClient.saveSpawnWith")
    (client "pouchDbClient.updateMsgWith")
    (client "pouchDbClient.findLatestMsgsWith")
    (client "pouchDbClient.findLatestSpawnsWith")
    (Import "cuClient.selectNode")
    (Import "cuClient.result")
    (client "sequencerClient.findTxWith")
    (client "sequencerClient.writeInteractionWith")
    (client "sequencerClient.writeContractTxWith")
    (Apply (Import "sequencerClient.buildAndSignWith"))
    (client "initMsgsWith")
    (client "processMsgWith")
    (client "crankMsgsWith")
    (client "processSpawnWith")
    name.

(** A module that counts the messages it has seen in its memory, and
    echoes the data of the last. *)
Definition transition (module state message : value) : result value :=
  Ok (obj [("Memory",
            match prop "Memory" state with
            | VBuffer bytes => VBuffer (bytes ++ [Byte.x01])
            | _ => VBuffer [Byte.x01]
            end);
           ("Output", prop "Data" (prop "message" message))]).

Definition genesis : value :=
  obj [("Memory", VBuffer []); ("Output", VStr "")].

(** The log of every process: two messages. *)
Definition log (pid : string) : list value :=
  [obj [("message", obj [("Data", VStr "hello")])];
   obj [("message", obj [("Data", VStr "world")])]].

(** The state of every process after the two messages. *)
Definition replayed : value :=
  obj [("Memory", VBuffer [Byte.x01; Byte.x01]); ("Output", VStr "world")].

Definition module (pid : string) : result value := Ok (VBuffer [Byte.x00]).

Definition annotations (pid : string) (n : nat) : gmap string value :=
  literal ∅
    [("owner", VStr "owner-1");
     ("tags", VArr []);
     ("from", VNum "1700000000");
     ("fromBlockHeight", VNum "1300000")].

(** [readState] over this log. *)
Definition read : value → Engine.store → result value * Engine.store :=
  Engine.readState transition log module genesis annotations.

Definition engineRun (a : DryRun.args) (w : Engine.store)
  : result value * state Engine.store :=
  DryRun.dryRunWith messageSchema_shape Zod.strip message_shape
    Zod.strip (Engine.lookup (λ x, (loadMessageMeta x ()).1))
    (Engine.lookup (λ x, (loadModule x ()).1)) read (Engine.evaluate transition)
    a (State w []).

(** What [readState] is asked for the latest point of the first process,
    and the checkpoint it saves. *)
Definition latestRequest : value :=
  obj [("processId", VStr "process-1"); ("to", VUndefined);
       ("ordinate", VStr "undefined"); ("cron", VUndefined);
       ("exact", VBool true)].

Definition saved : Engine.checkpoint :=
  Engine.Checkpoint "process-1" "2" replayed (VBuffer [Byte.x00]).

(** What a resolved result holds. *)
Definition unwrap (r : result value) : value :=
  match r with
  | Ok v => v
  | Throw _ => VUndefined
  end.

End Sample.

(** ** The steps of a dry run, and further inputs *)

Module Cases.
Import Js Async.

(** The collaborators a dry run can call, in the order of the pipeline:
    the lookup of the message when there is a [messageTxId], [readState],
    the module loader when [load] is set, the evaluator. *)
Definition pipeline (a : DryRun.args) (load : bool) : list string :=
  (if truthy (DryRun.messageTxId a) then ["loadMessageMeta"] else [])
  ++ ["readState"]
  ++ (if load then ["loadModule"] else [])
  ++ ["evaluate"].

(** The argument the second [chain] of [dryRunWith] gives [readState], from
    the result of the first. *)
Definition request (res : value) : value :=
  obj [("processId", prop "processId" res);
       ("to", prop "timestamp" res);
       ("ordinate", VStr (to_string (prop "nonce" res)));
       ("cron", VUndefined);
       ("exact", VBool true)].

(** Collaborators that reject, an evaluator that resolves with an empty
    object, and a [readState] whose answer has no [from]. *)
Definition down (reason : string) (x : value) (w : unit)
  : result value * unit :=
  (Throw (HostError reason), w).

Definition evaluateNothing (ctx : value) (w : unit) : result value * unit :=
  (Ok (obj []), w).

Definition readStateBare (x : value) (w : unit) : result value * unit :=
  (Ok (obj [("id", prop "processId" x)]), w).

Definition dryRun
    (loadMessageMeta loadModule readState evaluate
       : value → unit → result value * unit)
    (a : DryRun.args) : result value * state unit :=
  DryRun.dryRunWith Sample.messageSchema_shape Zod.strip Sample.message_shape
    Zod.strip loadMessageMeta loadModule readState evaluate a (State () []).

(** A store with two more processes: the transaction of the fourth has no
    tags, the source of the fifth cannot be fetched. *)
Definition loadTransactionMeta (id : value) (w : unit) : result value * unit :=
  match id with
  | VStr "process-4" =>
      (Ok (obj [("owner", obj [("address", VStr "owner-4")])]), w)
  | VStr "process-5" =>
      (Ok (LoadSrc.transaction "owner-5" [("Contract-Src", "source-5")]), w)
  | _ => Sample.loadTransactionMeta id w
  end.

(** Tags that name the source twice, with a tag between the two at which
    [ramda]'s [reduce] stops; and the same after a tag that gives the
    [reduce] its result. *)
Definition interrupted : list (string * string) :=
  [("Contract-Src", "source-1");
   ("@@transducer/reduced", "1");
   ("Contract-Src", "source-2")].

Definition diverted : list (string * string) :=
  [("@@transducer/value", "source-0");
   ("Contract-Src", "source-1");
   ("@@transducer/reduced", "1");
   ("Contract-Src", "source-2")].

(** A store that answers every id with a transaction of given tags. *)
Definition tagged (tags : list (string * string)) (id : value) (w : unit)
  : result value * unit :=
  (Ok (LoadSrc.transaction "owner-1" tags), w).

Definition loadTagged (tags : list (string * string)) (ctx : value)
  : result value * state unit :=
  LoadSrc.loadSourceWith (tagged tags) Sample.loadTransactionData
    Sample.arrayBuffer ctx (State () []).

(** A context with a property named [__proto__], and what is loaded into
    it. *)
Definition crafted : value :=
  obj [("id", VStr "process-1");
       ("__proto__", obj [("admin", VBool true)])].

Definition craftedWithSource : value :=
  obj [("id", VStr "process-1");
       ("owner", VStr "owner-1");
       ("src", VBuffer [Byte.x00; Byte.x61; Byte.x73; Byte.x6d])].

(** A response whose body is [null]. *)
Definition noBody (body : list Byte.byte) (w : unit) : result value * unit :=
  (Ok VNull, w).

(** The dry run of a ping at the latest point: what the first [chain]
    resolves with, the state after [readState], what [readState] answered,
    the state after the module is loaded. *)
Definition latestPoint : value :=
  obj [("processId", VStr "process-1"); ("to", VUndefined);
       ("ordinate", VUndefined)].

Definition latestRead : state unit :=
  State () [Call "readState" (request latestPoint)].

Definition latestAnswer : value :=
  Sample.cached (VStr "process-1") (VStr "undefined").

Definition latestLoaded : state unit :=
  State () (calls latestRead ++ [Call "loadModule" latestAnswer]).

(** Arguments: an empty message id, a payload that sets what the dry run
    sets itself, no payload. *)
Definition emptyId : DryRun.args :=
  DryRun.Args (VStr "process-1") (VStr "") Sample.ping.

Definition overriding : DryRun.args :=
  DryRun.Args (VStr "process-1") VUndefined
    (obj [("Target", VStr "process-9"); ("Cron", VBool true);
          ("Read-Only", VBool false); ("Data", VStr "ping")]).

Definition noPayload : DryRun.args :=
  DryRun.Args (VStr "process-1") VUndefined VUndefined.

(** The error of a result that throws, and the value of one that does
    not. *)
Definition thrown (r : result value) : error :=
  match r with
  | Throw e => e
  | Ok _ => HostError "resolved"
  end.

Definition resolved (r : result value) : value :=
  match r with
  | Ok v => v
  | Throw _ => VUndefined
  end.

(** The same for the [readState] whose answer has no [from]. *)
Definition bareAnswer : value := obj [("id", VStr "process-1")].

Definition bareRead : state unit :=
  State () [Call "readState" (request latestPoint)].

Definition bareLoaded : state unit :=
  State () (calls bareRead ++ [Call "loadModule" bareAnswer]).

(** What the schema makes of the dry-run message of an answer. *)
Definition parsedMessage (a : DryRun.args) (readStateRes : value)
  : result value :=
  DryRun.dryRunMessage Sample.messageSchema_shape Zod.strip
    Sample.message_shape Zod.strip a readStateRes.

(** What the log recorded for the message, a transaction without tags,
    and a context that already has an owner and a source. *)
Definition messageMetaAnswer : value :=
  obj [("processId", VStr "process-1"); ("timestamp", VNum "1700000000");
       ("nonce", VNum "7")].

(** What a log recorded for a message whose nonce is 1e21, which
    JavaScript prints with an exponent, and a lookup that answers with what
    it is given. *)
Definition farAnswer : value :=
  obj [("processId", VStr "process-1"); ("timestamp", VNum "1700000000");
       ("nonce", VNum "1e+21")].

Definition recorded (answer x : value) (w : unit) : result value * unit :=
  (Ok answer, w).

Definition malformed : value :=
  obj [("owner", obj [("address", VStr "owner-4")])].

Definition relabelled : value :=
  obj [("id", VStr "process-1"); ("stats", VUndefined); ("from", VNum "3");
       ("owner", VStr "someone"); ("src", VStr "something")].

Definition loadSource
    (arrayBuffer : list Byte.byte → unit → result value * unit)
    (ctx : value) : result value * state unit :=
  LoadSrc.loadSourceWith loadTransactionMeta Sample.loadTransactionData
    arrayBuffer ctx (State () []).

End Cases.

(** * Properties *)

(** ** Values *)

Module JsFacts.
Import Js.

(** *** The length of a string *)

Lemma codeUnits_nonempty bytes : codeUnits bytes ≠ [].
Proof. by do 5 (try destruct bytes as [|? bytes]). Qed.

Lemma units_nonempty pending need l :
  pending ≠ [] ∨ l ≠ [] → units pending need l ≠ [].
Proof.
  revert pending need. induction l as [|c rest IH]; intros pending need H.
  - destruct H as [H|H]; [|done]. by destruct pending.
  - cbn [units].
    assert (match following c with
            | 0 => [c] :: units [] 0 rest
            | S n => units [c] (S n) rest
            end ≠ []) as Hstart.
    { destruct (following c); [done|]. apply IH. by left. }
    destruct need as [|less]; [done|].
    destruct (continues c); [|done].
    destruct less.
    + intros [E _]%app_eq_nil. by apply codeUnits_nonempty in E.
    + apply IH. left. by destruct pending.
Qed.

(** A string that is not empty has a code unit. *)
Lemma string_length_pos s : s ≠ "" → (1 <=? string_length s)%nat = true.
Proof.
  intros Hs. unfold string_length, characters. rewrite length_fmap.
  destruct s as [|c s]; [done|]. simpl String.list_ascii_of_string.
  pose proof (units_nonempty [] 0 (c :: String.list_ascii_of_string s)) as H.
  destruct (units _ _ _); [by destruct H; [right|]|done].
Qed.

(** *** Index properties *)

Lemma pretty_N_char_numeric x s : numeric (String (pretty_N_char x) s) = true.
Proof.
  destruct x as [|p]; [done|].
  do 5 (try (destruct p as [p|p|]; try done)).
Qed.

Lemma pretty_N_go_numeric x s :
  numeric s = true → numeric (pretty_N_go x s) = true.
Proof.
  revert s. induction (N.lt_wf_0 x) as [x _ IH]. intros s Hs.
  destruct (decide (x = 0)%N) as [->|Hx]; [by rewrite pretty_N_go_0|].
  rewrite pretty_N_go_step by lia.
  apply IH; [|apply pretty_N_char_numeric].
  apply N.div_lt; lia.
Qed.

Lemma pretty_numeric (i : nat) : numeric (pretty i) = true.
Proof.
  unfold pretty, pretty_nat, pretty, pretty_N.
  destruct (decide (N.of_nat i = 0)%N); [done|].
  rewrite pretty_N_go_step by lia.
  apply pretty_N_go_numeric, pretty_N_char_numeric.
Qed.

Lemma lookup_indexed_name l k : numeric k = false → indexed l !! k = None.
Proof.
  intros Hk. unfold indexed. apply not_elem_of_list_to_map_1.
  rewrite fmap_imap. intros Hin.
  apply elem_of_lookup_imap in Hin as (i & x & -> & _).
  simpl in Hk. by rewrite pretty_numeric in Hk.
Qed.

(** A string has no property but its length and its indices. *)
Lemma prop_string_name s k :
  numeric k = false → k ≠ "length" → prop k (VStr s) = VUndefined.
Proof.
  intros Hk Hl. unfold prop. simpl.
  destruct (String.eqb_spec k "length"); [done|].
  unfold get. by rewrite lookup_indexed_name.
Qed.

End JsFacts.

(** ** Schemas *)

Module ZodFacts.
Import Js Zod.

Lemma field_elem k s shape : field k shape = Some s → (k, s) ∈ shape.
Proof.
  induction shape as [|[k' s'] rest IH]; simpl; [done|].
  destruct (String.eqb_spec k k') as [->|_].
  - intros [= ->]. left.
  - intros H. right. auto.
Qed.

Lemma field_is_Some k (shape : list (String.string * schema)) :
  is_Some (field k shape) ↔ k ∈ shape.*1.
Proof.
  induction shape as [|[k' s'] rest IH]; simpl.
  - split; [by intros [? ?]|by intros ?%elem_of_nil].
  - destruct (String.eqb_spec k k') as [->|Hne].
    + split; [left|eauto].
    + rewrite IH. split; [by right|].
      intros [?|?]%elem_of_cons; [done|done].
Qed.

Lemma field_app k (l1 l2 : list (String.string * schema)) :
  field k (l1 ++ l2) =
  match field k l1 with Some s => Some s | None => field k l2 end.
Proof.
  induction l1 as [|[k' s'] rest IH]; simpl; [done|].
  by destruct (String.eqb k k').
Qed.

Lemma field_filter k (P : String.string → Prop) `{!∀ x, Decision (P x)}
    (l : list (String.string * schema)) :
  field k (filter (λ ks : String.string * schema, P ks.1) l) =
  if decide (P k) then field k l else None.
Proof.
  induction l as [|[k' s'] rest IH]; simpl.
  - by destruct (decide (P k)).
  - rewrite filter_cons. simpl.
    destruct (String.eqb_spec k k') as [->|Hne].
    + destruct (decide (P k')); simpl; [by rewrite String.eqb_refl|done].
    + destruct (decide (P k')); simpl; [|done].
      by destruct (String.eqb_spec k k').
Qed.

(** The shape [base.extend(augmentation)] gives every key the schema the
    augmentation has for it, and otherwise the one of [base]. *)
Lemma field_extend k base augmentation :
  field k (extend base augmentation) =
  match field k augmentation with
  | Some s => Some s
  | None => field k base
  end.
Proof.
  unfold extend. rewrite field_app.
  pose proof (field_filter k (λ x, x ∉ base.*1) augmentation) as Hf.
  cbv beta in Hf. rewrite Hf. clear Hf.
  assert (field k ((λ ks : String.string * schema,
                      (ks.1, default ks.2 (field ks.1 augmentation))) <$> base)
          = (λ s, default s (field k augmentation)) <$> field k base) as ->.
  { induction base as [|[k' s'] rest IH]; simpl; [done|].
    by destruct (String.eqb_spec k k') as [->|Hne]. }
  destruct (field k base) as [s|] eqn:Hb; simpl.
  - by destruct (field k augmentation).
  - destruct (decide (k ∉ base.*1)) as [|Hin]; [by destruct (field k augmentation)|].
    exfalso. apply Hin. rewrite <-field_is_Some, Hb. by intros [? ?].
Qed.

(** A key whose value a field schema refuses makes the object schema
    refuse the object. *)
Lemma parseFields_invalid {S} (parseWith : S → value → parsed) props shape k s here :
  (k, s) ∈ shape → parseWith s (get props k) = Invalid here →
  is_Some (parseFields parseWith props shape).2.
Proof.
  induction shape as [|[k' s'] rest IH]; simpl.
  - by intros ?%elem_of_nil.
  - intros Hin Hbad.
    destruct (parseFields parseWith props rest) as [out issues] eqn:Hrest.
    apply elem_of_cons in Hin as [[= <- <-]|Hin].
    + rewrite Hbad. simpl. by eexists.
    + specialize (IH Hin Hbad). simpl in IH.
      destruct (parseWith s' (get props k')); simpl; [done|by eexists].
Qed.

Lemma object_invalid_field shape unknown props k s here :
  field k shape = Some s → safeParse s (get props k) = Invalid here →
  ∃ issues, safeParse (object shape unknown) (VObj props) = Invalid issues.
Proof.
  intros Hk%field_elem Hbad. simpl.
  pose proof (parseFields_invalid safeParse props shape k s here Hk Hbad) as [issues H].
  destruct (parseFields safeParse props shape) as [out o]. simpl in H. subst o.
  destruct unknown; [by eexists|by eexists|].
  case_bool_decide; simpl; [by eexists|].
  destruct (issues ++ _) eqn:E; [|by eexists].
  by apply app_eq_nil in E as [_ ?].
Qed.

(** The output of an object schema has, under a key of the shape, what the
    schema of the key makes of the property. *)
Lemma parseFields_lookup props shape out k s :
  parseFields safeParse props shape = (out, None) →
  field k shape = Some s →
  ∃ y, safeParse s (get props k) = Valid y ∧
       (is_undefined y = false → out !! k = Some y).
Proof.
  revert out. induction shape as [|[k' s'] rest IH]; intros out;
    cbn [parseFields field]; [discriminate|].
  destruct (parseFields safeParse props rest) as [out' issues] eqn:Hrest.
  destruct (safeParse s' (get props k')) as [y'|here] eqn:Hk';
    [|unfold failed; discriminate].
  intros [= <- ->].
  destruct (String.eqb_spec k k') as [->|Hne].
  - intros [= <-]. exists y'. split; [done|].
    intros ->. simpl. by rewrite lookup_insert_eq.
  - intros Hs. destruct (IH out' eq_refl Hs) as (y & Hy & Hout).
    exists y. split; [done|].
    intros Hu. destruct (_ || _); [rewrite lookup_insert_ne by done|]; auto.
Qed.

(** An object schema parses the properties of its input. *)
Lemma safeParse_object shape unknown v :
  safeParse (object shape unknown) v =
  match properties v with
  | Some props => safeParse (object shape unknown) (VObj props)
  | None => Invalid [invalid_type "object" v]
  end.
Proof. by destruct v. Qed.

Lemma prop_properties v props k :
  properties v = Some props → k ≠ "byteLength" → prop k v = get props k.
Proof.
  destruct v; try discriminate; intros [= <-] Hk; [|done..].
  unfold prop. simpl. by destruct (String.eqb_spec k "byteLength").
Qed.

Lemma parse_Ok s v x : parse s v = Ok x ↔ safeParse s v = Valid x.
Proof. unfold parse. destruct (safeParse s v); split; congruence. Qed.

Lemma parse_Throw s v e :
  parse s v = Throw e ↔ ∃ issues, safeParse s v = Invalid issues ∧ e = ZodError issues.
Proof.
  unfold parse. destruct (safeParse s v) as [x|issues]; split.
  - discriminate.
  - by intros (? & ? & _).
  - intros [= <-]. eauto.
  - by intros (? & [= <-] & ->).
Qed.

End ZodFacts.

(** ** Pipelines *)

Module AsyncFacts.
Import Js Async.

Lemma callsTo_app name l1 l2 :
  callsTo name (l1 ++ l2) = callsTo name l1 ++ callsTo name l2.
Proof. unfold callsTo. by rewrite filter_app, fmap_app. Qed.

Lemma callsTo_snoc name l n x :
  callsTo name (l ++ [Call n x]) =
  callsTo name l ++ (if decide (n = name) then [x] else []).
Proof.
  rewrite callsTo_app. f_equal. unfold callsTo.
  rewrite filter_cons, filter_nil. simpl. by destruct (decide (n = name)).
Qed.

Lemma invoke_run {W A} name (f : value → W → result A * W) x s :
  invoke name f x s =
  ((f x (world s)).1, State (f x (world s)).2 (calls s ++ [Call name x])).
Proof. unfold invoke. by destruct (f x (world s)). Qed.

Lemma chain_ext {W A B} (m : Async W A) (f g : A → Async W B) s :
  (∀ a s', f a s' = g a s') → chain m f s = chain m g s.
Proof. intros H. unfold chain. destruct (m s) as [[a|e] s']; [apply H|done]. Qed.

Lemma chain_ext_l {W A B} (m m' : Async W A) (f : A → Async W B) s :
  (∀ s', m s' = m' s') → chain m f s = chain m' f s.
Proof. intros H. unfold chain. by rewrite H. Qed.

Lemma map_state {W A B} (m : Async W A) (f : A → result B) s :
  (map m f s).2 = (m s).2.
Proof. unfold map, chain, attempt. by destruct (m s) as [[a|e] s']. Qed.

End AsyncFacts.

(** ** Dry runs *)

Module DryRunFacts.
Import Js Async DryRun AsyncFacts.

Section facts.
Context {W : Type}.
Variable messageSchema_shape : list (string * Zod.schema).
Variable messageSchema_unknown : Zod.unknownKeys.
Variable message_shape : list (string * Zod.schema).
Variable message_unknown : Zod.unknownKeys.
Variable loadMessageMeta : value → W → result value * W.
Variable loadModule : value → W → result value * W.
Variable readState : value → W → result value * W.
Variable evaluate : value → W → result value * W.

Notation schema :=
  (dryRunMessageSchema messageSchema_shape messageSchema_unknown
     message_shape message_unknown).
Notation dryRunMessage :=
  (dryRunMessage messageSchema_shape messageSchema_unknown
     message_shape message_unknown).
Notation readUpTo := (readUpTo readState).
Notation messageMeta := (messageMeta loadMessageMeta).
Notation withModule := (withModule loadModule).
Notation inject :=
  (inject messageSchema_shape messageSchema_unknown message_shape
     message_unknown loadModule evaluate).
Notation dryRunWith :=
  (dryRunWith messageSchema_shape messageSchema_unknown message_shape
     message_unknown loadMessageMeta loadModule readState evaluate).

(** The schema refuses an input whose message has one of the three
    fields. *)
Lemma schema_rejects_field k input :
  k ∈ ["Id"; "Owner"; "From"] →
  is_undefined (prop k (prop "message" input)) = false →
  ∃ issues, Zod.parse schema input = Throw (ZodError issues).
Proof.
  intros Hk Hdef.
  assert (k ≠ "byteLength") as Hkb.
  { intros ->. repeat (apply elem_of_cons in Hk as [?|Hk]; [done|]).
    by apply elem_of_nil in Hk. }
  assert (∃ issues, Zod.safeParse schema input = Zod.Invalid issues) as [issues H];
    [|exists issues; apply ZodFacts.parse_Throw; eauto].
  unfold dryRunMessageSchema. rewrite ZodFacts.safeParse_object.
  destruct (Zod.properties input) as [props|] eqn:Hp; [|by eexists].
  rewrite (ZodFacts.prop_properties _ _ _ Hp) in Hdef by done.
  assert (∃ here,
    Zod.safeParse
      (Zod.object
         (Zod.extend message_shape
            [("Id", Zod.undefined); ("Owner", Zod.undefined);
             ("From", Zod.undefined)]) message_unknown)
      (get props "message") = Zod.Invalid here) as [here Hinner].
  { rewrite ZodFacts.safeParse_object.
    destruct (Zod.properties (get props "message")) as [message|] eqn:Hm;
      [|by eexists].
    rewrite (ZodFacts.prop_properties _ _ _ Hm) in Hdef by done.
    eapply ZodFacts.object_invalid_field with (k := k) (s := Zod.undefined).
    - rewrite ZodFacts.field_extend.
      repeat (apply elem_of_cons in Hk as [->|Hk]; [done|]).
      by apply elem_of_nil in Hk.
    - simpl. by rewrite Hdef. }
  eapply ZodFacts.object_invalid_field with (k := "message"); [|exact Hinner].
  by rewrite ZodFacts.field_extend.
Qed.

Lemma dryRunInput_Ok a readStateRes :
  readStateRes ≠ VUndefined → readStateRes ≠ VNull →
  ∃ input, dryRunInput a readStateRes = Ok input.
Proof.
  intros H1 H2. unfold dryRunInput.
  destruct readStateRes; try done; simpl; eauto.
Qed.

Lemma dryRunInput_shape a readStateRes input :
  dryRunInput a readStateRes = Ok input →
  prop "noSave" input = VBool true ∧
  prop "ordinate" input = prop "ordinate" readStateRes ∧
  ∃ message,
    prop "message" input = VObj message ∧
    message !! "Id" = Some VUndefined ∧
    message !! "Owner" = Some VUndefined ∧
    message !! "From" = Some VUndefined ∧
    message !! "Target" = Some (processId a) ∧
    message !! "Timestamp" = Some (prop "from" readStateRes) ∧
    message !! "Block-Height" = Some (prop "fromBlockHeight" readStateRes) ∧
    message !! "Cron" = Some (VBool false) ∧
    message !! "Read-Only" = Some (VBool true) ∧
    ∀ k, k ∉ overridden → message !! k = spread (dryRun a) !! k.
Proof.
  unfold dryRunInput. intros H.
  assert (∃ o f h w t,
    member readStateRes "ordinate" = Ok o ∧ o = prop "ordinate" readStateRes ∧
    member readStateRes "from" = Ok f ∧ f = prop "from" readStateRes ∧
    member readStateRes "fromBlockHeight" = Ok h ∧
    h = prop "fromBlockHeight" readStateRes ∧
    member readStateRes "owner" = Ok w ∧ member readStateRes "tags" = Ok t)
    as (o & f & h & w & t & Ho & -> & Hf & -> & Hh & -> & Hw & Ht).
  { unfold prop. destruct readStateRes; try discriminate H; simpl;
      repeat eexists. }
  rewrite Ho, Hf, Hh, Hw, Ht in H. simpl in H. injection H as <-.
  split; [done|]. split; [done|].
  eexists. split; [reflexivity|].
  unfold literal; simpl.
  repeat (split; [by simplify_map_eq|]).
  intros k Hk. unfold overridden in Hk.
  repeat (apply not_elem_of_cons in Hk as [? Hk]).
  by simplify_map_eq.
Qed.

(** The calls of the first two steps: the metadata lookup, if any, and
    [readState]. *)
Lemma readUpTo_calls res s :
  ∃ extra, calls (readUpTo res s).2 = calls s ++ extra ∧
    callsTo "loadModule" extra = [] ∧ callsTo "evaluate" extra = [].
Proof.
  unfold DryRun.readUpTo, chain, attempt.
  destruct (member res "processId"); simpl; [|exists []; by rewrite app_nil_r].
  destruct (member res "timestamp"); simpl; [|exists []; by rewrite app_nil_r].
  destruct (member res "nonce"); simpl; [|exists []; by rewrite app_nil_r].
  rewrite invoke_run. simpl. by eexists.
Qed.

Lemma upTo_calls a s :
  ∃ extra, calls (chain (messageMeta a) readUpTo s).2 = calls s ++ extra ∧
    callsTo "loadModule" extra = [] ∧ callsTo "evaluate" extra = [].
Proof.
  unfold chain at 1, DryRun.messageMeta.
  destruct (truthy (messageTxId a)).
  - rewrite invoke_run.
    destruct (loadMessageMeta _ _) as [[res|e] w]; simpl.
    + destruct (readUpTo_calls res
                  (State w (calls s ++ [Call "loadMessageMeta"
                     (obj [("processId", processId a);
                           ("messageTxId", messageTxId a)])])))
        as (extra & -> & H1 & H2).
      simpl. rewrite <-app_assoc. eexists. split; [done|].
      by rewrite !callsTo_app, H1, H2.
    + by eexists.
  - unfold Resolved. apply readUpTo_calls.
Qed.

(** What the dry run does once [readState] has answered and the module
    is there: a single call of the evaluator, on the context with the
    stream of the one dry-run message; the result is the [output] of
    what the evaluator returns, without its [Memory]. *)
Lemma dryRunWith_run a s readStateRes s1 ctx s2 :
  chain (messageMeta a) readUpTo s = (Ok readStateRes, s1) →
  withModule readStateRes s1 = (Ok ctx, s2) →
  dryRunWith a s =
  let x :=
    VObj (literal (spread ctx)
            [("messages", Readable_from (dryRunMessage a readStateRes))]) in
  ((res ← (evaluate x (world s2)).1;
    output ← member res "output";
    Ok (omit ["Memory"] output)),
   State (evaluate x (world s2)).2 (calls s2 ++ [Call "evaluate" x])).
Proof.
  intros H1 H2. unfold DryRun.dryRunWith, map, DryRun.inject.
  unfold chain in H1 |- *.
  destruct (messageMeta a s) as [[res|e] s0]; [|done].
  rewrite H1, H2, invoke_run. unfold attempt. simpl.
  destruct (evaluate _ _) as [[res'|e] w]; simpl; [|done].
  by destruct (member res' "output").
Qed.

Lemma withModule_run ctx module s :
  member ctx "module" = Ok module →
  withModule ctx s =
  if truthy module then (Ok ctx, s) else invoke "loadModule" loadModule ctx s.
Proof.
  intros H. unfold DryRun.withModule, chain, attempt. rewrite H.
  by destruct (truthy module).
Qed.

Lemma withModule_Ok ctx s ctx' s' :
  withModule ctx s = (Ok ctx', s') →
  ∃ module, member ctx "module" = Ok module ∧ prop "module" ctx = module.
Proof.
  unfold DryRun.withModule, chain, attempt, prop.
  destruct (member ctx "module"); [eauto|discriminate].
Qed.

Lemma member_Ok_defined v k x :
  member v k = Ok x → v ≠ VUndefined ∧ v ≠ VNull.
Proof. by destruct v. Qed.

(** The state a dry run ends in. *)
Lemma dryRunWith_state a s :
  (dryRunWith a s).2 =
  match chain (messageMeta a) readUpTo s with
  | (Ok readStateRes, s1) =>
      match withModule readStateRes s1 with
      | (Ok ctx, s2) =>
          let x :=
            VObj (literal (spread ctx)
                    [("messages",
                      Readable_from (dryRunMessage a readStateRes))]) in
          State (evaluate x (world s2)).2 (calls s2 ++ [Call "evaluate" x])
      | (Throw _, s2) => s2
      end
  | (Throw _, s1) => s1
  end.
Proof.
  destruct (chain (messageMeta a) readUpTo s) as [[rs|e] s1] eqn:H1.
  - destruct (withModule rs s1) as [[ctx|e] s2] eqn:H2.
    + by rewrite (dryRunWith_run _ _ _ _ _ _ H1 H2).
    + unfold DryRun.dryRunWith. rewrite !map_state.
      unfold DryRun.inject. unfold chain in H1 |- *.
      destruct (messageMeta a s) as [[res|e'] s0]; [|done].
      by rewrite H1, H2.
  - unfold DryRun.dryRunWith. rewrite !map_state.
    unfold chain in H1 |- *.
    destruct (messageMeta a s) as [[res|e'] s0]; [|by injection H1 as _ ->].
    by rewrite H1.
Qed.




(** After [readState] has answered, a dry run calls it no more. *)
Lemma dryRunWith_readState_calls a s :
  callsTo "readState" (calls (dryRunWith a s).2) =
  callsTo "readState" (calls (chain (messageMeta a) readUpTo s).2).
Proof.
  rewrite dryRunWith_state.
  destruct (chain (messageMeta a) readUpTo s) as [[rs|e] s1]; [|done].
  unfold DryRun.withModule, chain, attempt.
  destruct (member rs "module") as [module|e']; [|done]. simpl.
  destruct (truthy module); simpl.
  - by rewrite callsTo_snoc, app_nil_r.
  - rewrite invoke_run.
    destruct (loadModule rs (world s1)) as [[ctx|e] w]; simpl;
      by rewrite ?callsTo_snoc, ?app_nil_r.
Qed.

(** With a [messageTxId], [readState] is asked for the point the log
    recorded for the message: its timestamp, and its nonce as a string. *)
Lemma dryRun_at_message_reads_recorded_point a s res w :
  truthy (messageTxId a) = true →
  loadMessageMeta
    (obj [("processId", processId a); ("messageTxId", messageTxId a)])
    (world s) = (Ok res, w) →
  res ≠ VUndefined → res ≠ VNull →
  callsTo "readState" (calls (dryRunWith a s).2) =
  callsTo "readState" (calls s)
  ++ [obj [("processId", prop "processId" res);
           ("to", prop "timestamp" res);
           ("ordinate", VStr (to_string (prop "nonce" res)));
           ("cron", VUndefined);
           ("exact", VBool true)]].
Proof.
  intros Ht Hmeta Hu Hn. rewrite dryRunWith_readState_calls.
  unfold chain at 1, DryRun.messageMeta. rewrite Ht, invoke_run, Hmeta.
  cbn [fst snd].
  assert (∀ k, member res k = Ok (prop k res)) as Hk
    by (intros k; unfold prop; by destruct res).
  unfold DryRun.readUpTo, chain, attempt. rewrite !Hk, invoke_run.
  cbn [snd calls]. by rewrite !callsTo_snoc, app_nil_r.
Qed.

(** C4, at the input on which the code departs from it. Without a
    [messageTxId], [readState] is called once, with [exact] true, [cron]
    and [to] [undefined], and for [ordinate] the string ["undefined"]: the
    template literal of the [nonce] the latest point does not have. *)
Theorem dryRun_latest_reads_ordinate_as_string pid payload s :
  callsTo "readState" (calls (dryRunWith (Args pid VUndefined payload) s).2) =
  callsTo "readState" (calls s)
  ++ [obj [("processId", pid);
           ("to", VUndefined);
           ("ordinate", VStr "undefined");
           ("cron", VUndefined);
           ("exact", VBool true)]].
Proof.
  rewrite dryRunWith_readState_calls.
  set (x := obj _).
  assert (chain (messageMeta (Args pid VUndefined payload)) readUpTo s
          = invoke "readState" readState x s) as -> by reflexivity.
  rewrite invoke_run. cbn [snd calls]. by rewrite callsTo_snoc.
Qed.


(** C5, as amended. The module loader is called, once and on what
    [readState] answered, exactly when that answer has no module attached
    (the [module] property is falsy); when it has one, the answer is used
    as it is and the loader is not called. *)
Theorem dryRun_loads_module_iff_absent a s readStateRes s1 module :
  chain (messageMeta a) readUpTo s = (Ok readStateRes, s1) →
  member readStateRes "module" = Ok module →
  callsTo "loadModule" (calls (dryRunWith a s).2) =
    callsTo "loadModule" (calls s)
    ++ (if truthy module then [] else [readStateRes]) ∧
  (truthy module = true →
   withModule readStateRes s1 = (Ok readStateRes, s1)).
Proof.
  intros H1 Hm. split; [|by intros Ht; rewrite (withModule_run _ _ _ Hm), Ht].
  rewrite dryRunWith_state, H1, (withModule_run _ _ _ Hm).
  destruct (upTo_calls a s) as (extra & Hc & Hl & _).
  rewrite H1 in Hc. simpl in Hc.
  destruct (truthy module).
  - simpl. by rewrite callsTo_snoc, Hc, callsTo_app, Hl, !app_nil_r.
  - rewrite invoke_run.
    destruct (loadModule _ _) as [[ctx|e] w]; simpl;
      by rewrite ?callsTo_snoc, Hc, callsTo_app, Hl, ?app_nil_r.
Qed.

Lemma dryRunInput_ext a a' readStateRes :
  processId a = processId a' →
  (∀ k, k ∉ ["Id"; "Owner"; "From"] →
        spread (dryRun a) !! k = spread (dryRun a') !! k) →
  dryRunInput a readStateRes = dryRunInput a' readStateRes.
Proof.
  intros Hp Hd. unfold dryRunInput. rewrite Hp.
  assert (literal (spread (dryRun a))
            [("Id", VUndefined); ("Owner", VUndefined); ("From", VUndefined)]
          = literal (spread (dryRun a'))
              [("Id", VUndefined); ("Owner", VUndefined); ("From", VUndefined)])
    as Heq.
  { apply map_eq. intros k. unfold literal. simpl.
    destruct (decide (k = "From")) as [->|?]; [by simplify_map_eq|].
    destruct (decide (k = "Owner")) as [->|?]; [by simplify_map_eq|].
    destruct (decide (k = "Id")) as [->|?]; [by simplify_map_eq|].
    rewrite !lookup_insert_ne by done. apply Hd.
    by repeat (apply not_elem_of_cons; split; [done|]); apply not_elem_of_nil. }
  unfold literal in *. simpl in *. by rewrite Heq.
Qed.


(** C8. Two dry runs whose payloads differ only in [Id], [Owner] and
    [From] do the same, from any state of the world: the same calls, the
    same result, the same error if any. *)
Theorem dryRun_independent_of_caller_identity a a' s :
  processId a = processId a' →
  messageTxId a = messageTxId a' →
  (∀ k, k ∉ ["Id"; "Owner"; "From"] →
        spread (dryRun a) !! k = spread (dryRun a') !! k) →
  dryRunWith a s = dryRunWith a' s.
Proof.
  intros Hp Hm Hd. unfold DryRun.dryRunWith, map.
  do 2 (apply chain_ext_l; intros ?).
  assert (messageMeta a = messageMeta a') as ->.
  { unfold DryRun.messageMeta. by rewrite Hp, Hm. }
  do 2 (apply chain_ext; intros ? ?).
  unfold DryRun.inject, DryRun.dryRunMessage.
  by rewrite (dryRunInput_ext a a').
Qed.


(** C1, as amended. In the message a dry run hands to the schema, [Id],
    [Owner] and [From] are [undefined] whatever the payload holds; and the
    schema refuses every input whose message does have one of them. *)
Theorem dryRun_masks_identity_and_schema_checks k a readStateRes input :
  k ∈ ["Id"; "Owner"; "From"] →
  dryRunInput a readStateRes = Ok input →
  prop k (prop "message" input) = VUndefined ∧
  ∀ other, is_undefined (prop k (prop "message" other)) = false →
           ∃ issues, Zod.parse schema other = Throw (ZodError issues).
Proof.
  intros Hk Hin. split; [|intros other; by apply schema_rejects_field].
  destruct (dryRunInput_shape _ _ _ Hin)
    as (_ & _ & message & -> & HId & HOw & HFr & _).
  unfold prop. simpl. unfold get.
  repeat (apply elem_of_cons in Hk as [->|Hk]; [by simplify_option_eq|]).
  by apply elem_of_nil in Hk.
Qed.
End facts.

(** The runs of the concrete environment. *)


(** C1 fails: a payload with an [Id], an [Owner] and a [From] is not
    rejected. The evaluator is called, and the run resolves with the
    output of the message without the three. *)
Lemma forged_identity_is_evaluated :
  (Sample.dryRun Sample.readState Sample.forged).1 =
    Ok (obj [("Output",
              obj [("Id", VUndefined); ("Owner", VUndefined);
                   ("From", VUndefined); ("Target", VStr "process-1");
                   ("Data", VStr "ping"); ("Timestamp", VNum "1700000000");
                   ("Block-Height", VNum "1300000"); ("Cron", VBool false);
                   ("Read-Only", VBool true)])]) ∧
  callee <$> calls (Sample.dryRun Sample.readState Sample.forged).2 =
    ["readState"; "loadModule"; "evaluate"].
Proof. split; vm_compute; reflexivity. Qed.


(** The amended C1 on the forged payload, and on a message that does carry
    an [Id]. *)
Lemma dryRun_masks_identity_and_schema_checks_witness :
  let input :=
    obj [("noSave", VBool true);
         ("message", obj [("Id", VStr "forged-id"); ("Data", VStr "ping")])] in
  "Id" ∈ ["Id"; "Owner"; "From"] ∧
  (∃ sent,
     dryRunInput Sample.forged (Sample.cached (VStr "process-1") (VStr "undefined"))
       = Ok sent ∧
     prop "Id" (prop "message" sent) = VUndefined) ∧
  ∃ issues,
    Zod.parse
      (dryRunMessageSchema Sample.messageSchema_shape Zod.strip
         Sample.message_shape Zod.strip) input
    = Throw (ZodError issues).
Proof.
  intros input.
  assert ("Id" ∈ ["Id"; "Owner"; "From"]) as Hk by left.
  split; [exact Hk|].
  destruct (dryRunInput_Ok Sample.forged
              (Sample.cached (VStr "process-1") (VStr "undefined")))
    as [sent Hsent]; [done|done|].
  destruct (dryRun_masks_identity_and_schema_checks
              Sample.messageSchema_shape Zod.strip Sample.message_shape
              Zod.strip "Id" Sample.forged _ sent Hk Hsent) as [Hmask Hrej].
  split; [by exists sent|].
  apply Hrej. reflexivity.
Defined.



(** C5 fails as it is stated: when the answer of [readState] has no module
    the loader is called, and when it has one the loader is not. *)
Lemma module_loaded_when_missing_reused_when_attached :
  (prop "module" (Sample.cached (VStr "process-1") (VStr "7")) = VUndefined ∧
   callsTo "loadModule"
     (calls (Sample.dryRun Sample.readState Sample.atMessage).2)
   = [Sample.cached (VStr "process-1") (VStr "7")]) ∧
  (prop "module" (Sample.loaded (VStr "process-1") (VStr "7"))
   = VBuffer [Byte.x00] ∧
   callsTo "loadModule"
     (calls (Sample.dryRun Sample.readStateLoaded Sample.atMessage).2)
   = []).
Proof. repeat split; vm_compute; reflexivity. Qed.


(** The amended C5 on an answer from the cache. *)
Lemma dryRun_loads_module_iff_absent_witness :
  let readStateRes := Sample.cached (VStr "process-1") (VStr "7") in
  chain (messageMeta Sample.loadMessageMeta Sample.atMessage)
    (readUpTo Sample.readState) (State () []) = (Ok readStateRes, Sample.afterRead) ∧
  member readStateRes "module" = Ok VUndefined ∧
  callsTo "loadModule"
    (calls (Sample.dryRun Sample.readState Sample.atMessage).2)
  = [readStateRes].
Proof.
  intros readStateRes.
  assert (chain (messageMeta Sample.loadMessageMeta Sample.atMessage)
            (readUpTo Sample.readState) (State () [])
          = (Ok readStateRes, Sample.afterRead)) as H1 by (vm_compute; reflexivity).
  assert (member readStateRes "module" = Ok VUndefined) as H2 by reflexivity.
  split; [exact H1|]. split; [exact H2|].
  exact (proj1 (dryRun_loads_module_iff_absent
                  Sample.messageSchema_shape Zod.strip Sample.message_shape
                  Zod.strip Sample.loadMessageMeta Sample.loadModule
                  Sample.readState Sample.evaluate _ _ _ _ _ H1 H2)).
Defined.


(** C8 on the forged ping and the plain one. *)
Lemma dryRun_independent_of_caller_identity_witness :
  processId Sample.forged = processId Sample.latest ∧
  messageTxId Sample.forged = messageTxId Sample.latest ∧
  Sample.dryRun Sample.readState Sample.forged
  = Sample.dryRun Sample.readState Sample.latest.
Proof.
  split; [reflexivity|]. split; [reflexivity|].
  apply dryRun_independent_of_caller_identity; [reflexivity|reflexivity|].
  intros k Hk.
  apply not_elem_of_cons in Hk as [H1 Hk].
  apply not_elem_of_cons in Hk as [H2 Hk].
  apply not_elem_of_cons in Hk as [H3 _].
  unfold Sample.forged, Sample.latest, Sample.forgedPing, Sample.ping, obj,
    literal. simpl.
  destruct (decide (k = "Data")) as [->|H4].
  - reflexivity.
  - by rewrite !lookup_insert_ne.
Defined.

End DryRunFacts.

(** ** Loading the source *)

Module LoadSrcFacts.
Import Js Async LoadSrc JsFacts AsyncFacts.

(** *** What the transaction schema returns *)

Lemma safeParse_string_Valid v y :
  Zod.safeParse (Zod.string None) v = Zod.Valid y → ∃ s, v = VStr s ∧ y = VStr s.
Proof. destruct v; simpl; try discriminate. intros [= <-]. eauto. Qed.

Lemma safeParse_tag v y :
  Zod.safeParse tagSchema v = Zod.Valid y → ∃ t, y = tag t.
Proof.
  unfold tagSchema. rewrite ZodFacts.safeParse_object.
  destruct (Zod.properties v) as [props|]; [|discriminate]. simpl.
  destruct (get props "value") as [| | | |value| | | | |];
    destruct (get props "name") as [| | | |name| | | | |];
    try discriminate.
  simpl. intros [= <-]. by exists (name, value).
Qed.

Lemma parseElements_tags i items out :
  Zod.parseElements (Zod.safeParse tagSchema) i items = (out, None) →
  ∃ tags, out = tag <$> tags.
Proof.
  revert i out. induction items as [|x rest IH]; intros i out;
    cbn [Zod.parseElements].
  - intros [= <-]. by exists [].
  - destruct (Zod.parseElements _ (S i) rest) as [out' issues] eqn:Hrest.
    destruct (Zod.safeParse tagSchema x) as [y|here] eqn:Hx;
      [|unfold Zod.failed; discriminate].
    intros [= <- ->].
    apply IH in Hrest as [tags ->]. apply safeParse_tag in Hx as [t ->].
    by exists (t :: tags).
Qed.

Lemma safeParse_owner v y :
  Zod.safeParse ownerSchema v = Zod.Valid y →
  ∃ address, y = obj [("address", VStr address)].
Proof.
  unfold ownerSchema. rewrite ZodFacts.safeParse_object.
  destruct (Zod.properties v) as [props|]; [|discriminate]. simpl.
  destruct (get props "address") as [| | | |address| | | | |]; try discriminate.
  simpl. intros [= <-]. by exists address.
Qed.

Lemma safeParse_tags v y :
  Zod.safeParse tagsSchema v = Zod.Valid y →
  ∃ tags, y = VArr (tag <$> tags).
Proof.
  destruct v as [| | | | | |items| | |]; try discriminate.
  unfold tagsSchema. cbn [Zod.safeParse].
  destruct (Zod.parseElements _ 0 items) as [out [issues|]] eqn:Hel;
    [discriminate|].
  apply parseElements_tags in Hel as [tags ->].
  intros [= <-]. by exists tags.
Qed.

Lemma parse_transactionSchema tx tx' :
  Zod.parse transactionSchema tx = Ok tx' →
  ∃ address tags, tx' = transaction address tags.
Proof.
  rewrite ZodFacts.parse_Ok.
  unfold transactionSchema. rewrite ZodFacts.safeParse_object.
  destruct (Zod.properties tx) as [props|]; [|discriminate].
  cbn [Zod.safeParse Zod.properties Zod.parseFields].
  destruct (Zod.safeParse tagsSchema (get props "tags")) as [tags|] eqn:Ht;
    destruct (Zod.safeParse ownerSchema (get props "owner")) as [owner|] eqn:Ho;
    try (unfold Zod.failed; discriminate).
  apply safeParse_tags in Ht as [tags' ->].
  apply safeParse_owner in Ho as [address ->].
  simpl. intros [= <-]. by exists address, tags'.
Qed.

Lemma parseElements_tag_values i tags :
  Zod.parseElements (Zod.safeParse tagSchema) i (tag <$> tags)
  = (tag <$> tags, None).
Proof.
  revert i. induction tags as [|t rest IH]; intros i; [done|].
  rewrite fmap_cons. cbn [Zod.parseElements]. rewrite IH.
  by destruct t.
Qed.

Lemma parse_transaction address tags :
  Zod.parse transactionSchema (transaction address tags)
  = Ok (transaction address tags).
Proof.
  unfold Zod.parse, transactionSchema, transaction, obj, literal.
  cbn [Zod.safeParse Zod.properties Zod.parseFields foldl fst snd].
  assert (get (<["tags":=VArr (tag <$> tags)]>
                 (<["owner":=VObj (<["address":=VStr address]> ∅)]> ∅)) "tags"
          = VArr (tag <$> tags)) as -> by reflexivity.
  assert (get (<["tags":=VArr (tag <$> tags)]>
                 (<["owner":=VObj (<["address":=VStr address]> ∅)]> ∅)) "owner"
          = VObj (<["address":=VStr address]> ∅)) as -> by reflexivity.
  unfold tagsSchema. cbn [Zod.safeParse].
  rewrite parseElements_tag_values. reflexivity.
Qed.

(** *** From the tags to the source id *)

Lemma byName_tag (acc : gmap string value) t :
  byName (VObj acc) (tag t) = Ok (VObj (assocTag acc t)).
Proof. by destruct t. Qed.

(** The step of the [reduce] stops it on the tags that [stops] tells, and
    on no other as long as the accumulator has no truthy
    ['@@transducer/reduced']. *)
Lemma assocTag_reduced (acc : gmap string value) t :
  truthy (get acc "@@transducer/reduced") = false →
  truthy (get (assocTag acc t) "@@transducer/reduced") = stops t.
Proof.
  intros Hacc. unfold stops, assocTag. destruct t as [name value]. simpl.
  destruct (String.eqb_spec name "__proto__") as [->|Hp]; [done|].
  destruct (String.eqb_spec name "@@transducer/reduced") as [->|Hr].
  - unfold get. by rewrite lookup_insert_eq.
  - unfold get in *. by rewrite lookup_insert_ne.
Qed.

Lemma reduce_tags (acc : gmap string value) tags :
  truthy (get acc "@@transducer/reduced") = false →
  reduce byName (VObj acc) (tag <$> tags) =
  Ok match stopped tags with
     | None => VObj (foldl assocTag acc tags)
     | Some before => get (foldl assocTag acc before) "@@transducer/value"
     end.
Proof.
  revert acc. induction tags as [|t rest IH]; intros acc Hacc; [done|].
  rewrite fmap_cons. cbn [reduce stopped foldl]. rewrite byName_tag.
  cbn [result_bind truthy andb].
  change (prop "@@transducer/reduced" (VObj (assocTag acc t)))
    with (get (assocTag acc t) "@@transducer/reduced").
  rewrite (assocTag_reduced acc t Hacc).
  destruct (stops t) eqn:Hstop.
  - f_equal. unfold stops in Hstop. destruct t as [name value].
    unfold assocTag. simpl in *.
    apply andb_prop in Hstop as [->%String.eqb_eq _]. simpl.
    unfold prop. simpl. unfold get. by rewrite lookup_insert_ne.
  - rewrite IH by (by rewrite assocTag_reduced).
    by destruct (stopped rest).
Qed.

Lemma tagsToObject_tags tags :
  tagsToObject (VArr (tag <$> tags)) =
  Ok match stopped tags with
     | None => VObj (tagsObject tags)
     | Some before => get (tagsObject before) "@@transducer/value"
     end.
Proof. unfold tagsToObject. by rewrite reduce_tags. Qed.

Lemma lastTag_cons name t rest :
  lastTag name (t :: rest) =
  match lastTag name rest with
  | Some v => Some v
  | None => if decide (t.1 = name) then Some t.2 else None
  end.
Proof.
  unfold lastTag. rewrite filter_cons.
  destruct (decide (t.1 = name)); [|by destruct (last _)].
  rewrite fmap_cons, last_cons. by destruct (last _).
Qed.

Lemma lookup_foldl_tags (acc : gmap string value) tags name :
  name ≠ "__proto__" →
  foldl assocTag acc tags !! name =
  match lastTag name tags with
  | Some v => Some (VStr v)
  | None => acc !! name
  end.
Proof.
  intros Hname. revert acc.
  induction tags as [|t rest IH]; intros acc; [done|].
  simpl. rewrite IH, lastTag_cons.
  destruct (lastTag name rest); [done|]. unfold assocTag.
  destruct (decide (t.1 = name)) as [<-|?].
  - destruct (String.eqb_spec t.1 "__proto__"); [done|].
    by rewrite lookup_insert_eq.
  - destruct (String.eqb t.1 "__proto__"); [done|].
    by rewrite lookup_insert_ne.
Qed.

(** A later tag replaces an earlier one of its name. *)
Lemma lookup_tagsObject tags name :
  name ≠ "__proto__" →
  tagsObject tags !! name = VStr <$> lastTag name tags.
Proof.
  intros Hname. unfold tagsObject. rewrite lookup_foldl_tags by done.
  by destruct (lastTag name tags).
Qed.

Lemma get_tagsObject tags name :
  name ≠ "__proto__" →
  get (tagsObject tags) name = default VUndefined (VStr <$> lastTag name tags).
Proof. intros Hname. unfold get. by rewrite lookup_tagsObject. Qed.

(** What the tags of a transaction give when the [reduce] stops: a string
    or [undefined], that has no Contract-Src. *)
Lemma tagsToObject_stopped tags before :
  stopped tags = Some before →
  tagsToObject (VArr (tag <$> tags))
  = Ok (default VUndefined (VStr <$> lastTag "@@transducer/value" before)) ∧
  prop "Contract-Src"
    (default VUndefined (VStr <$> lastTag "@@transducer/value" before))
  = VUndefined.
Proof.
  intros Hstop. rewrite tagsToObject_tags, Hstop, get_tagsObject by done.
  split; [done|].
  destruct (lastTag _ before) as [v|]; [|done].
  by apply prop_string_name.
Qed.

Lemma parse_contractSrc v :
  v ≠ "" → Zod.parse contractSrcSchema (VStr v) = Ok (VStr v).
Proof.
  intros Hv. unfold Zod.parse, contractSrcSchema. cbn [Zod.safeParse].
  by rewrite string_length_pos.
Qed.

Lemma contractMeta_transaction address tags :
  contractMeta (transaction address tags) =
  match stopped tags, lastTag "Contract-Src" tags with
  | Some _, _ | None, None => Throw (ZodError [required])
  | None, Some "" => Throw (ZodError [notPresent])
  | None, Some v => Ok (obj [("srcId", VStr v); ("owner", VStr address)])
  end.
Proof.
  unfold contractMeta, srcIdOf.
  change (prop "tags" (transaction address tags)) with (VArr (tag <$> tags)).
  destruct (stopped tags) as [before|] eqn:Hstop.
  - destruct (tagsToObject_stopped _ _ Hstop) as [-> Hsrc].
    cbn [mbind result_mbind result_bind]. by rewrite Hsrc.
  - rewrite tagsToObject_tags, Hstop. cbn [mbind result_mbind result_bind].
    change (prop "Contract-Src" (VObj (tagsObject tags)))
      with (get (tagsObject tags) "Contract-Src").
    rewrite get_tagsObject by done.
    destruct (lastTag "Contract-Src" tags) as [v|]; [|done].
    destruct v as [|c v]; [done|].
    cbn [default fmap option_fmap option_map]. unfold id.
    by rewrite parse_contractSrc.
Qed.

Lemma pick_transaction address tags :
  pick ["owner"; "tags"] (transaction address tags) = transaction address tags.
Proof. reflexivity. Qed.

(** *** What the result schema returns *)

Lemma lookup_defined (m : gmap string value) k :
  Zod.defined m !! k =
  m !! k ≫= λ x, if is_undefined x || String.eqb k "__proto__"
                 then None else Some x.
Proof. unfold Zod.defined. by rewrite map_lookup_imap. Qed.

Lemma lookup_extraKeys shape (m : gmap string value) k :
  Zod.extraKeys shape m !! k =
  if bool_decide (k ∈ shape.*1) then None else m !! k.
Proof.
  unfold Zod.extraKeys. rewrite map_lookup_imap.
  destruct (m !! k); simpl; by case_bool_decide.
Qed.

Lemma parse_srcSchema props r :
  Zod.parse srcSchema (VObj props) = Ok r →
  ∃ owner out,
    r = VObj out ∧
    get props "owner" = VStr owner ∧
    truthy (get props "src") = true ∧
    out !! "owner" = Some (VStr owner) ∧
    out !! "src" = Some (get props "src") ∧
    ∀ k, k ≠ "owner" → k ≠ "src" →
         out !! k =
         props !! k ≫= λ x, if is_undefined x || String.eqb k "__proto__"
                            then None else Some x.
Proof.
  rewrite ZodFacts.parse_Ok. unfold srcSchema.
  cbn [Zod.safeParse Zod.properties Zod.parseFields].
  destruct (get props "owner") as [| | | |owner| | | | |] eqn:Ho;
    try discriminate;
    destruct (truthy (get props "src")) eqn:Hs; try discriminate.
  assert (is_undefined (get props "src") = false) as Hu
    by (by destruct (get props "src")).
  rewrite Hu. simpl. intros [= <-].
  exists owner. eexists. split; [done|]. split; [done|]. split; [done|].
  split; [|split].
  - apply lookup_union_Some_l. by simplify_map_eq.
  - apply lookup_union_Some_l. by simplify_map_eq.
  - intros k H1 H2. rewrite lookup_union_r by (by simplify_map_eq).
    rewrite lookup_defined, lookup_extraKeys.
    rewrite bool_decide_eq_false_2; [done|]. simpl.
    intros [->|[->|?%elem_of_nil]%elem_of_cons]%elem_of_cons; done.
Qed.

Section facts.
Context {W Response : Type}.
Variable loadTransactionMeta : value → W → result value * W.
Variable loadTransactionData : value → W → result Response * W.
Variable arrayBuffer : Response → W → result value * W.

Notation getContractMetaWith := (getContractMetaWith loadTransactionMeta).
Notation getSourceBufferWith :=
  (getSourceBufferWith loadTransactionData arrayBuffer).
Notation loadSourceWith :=
  (loadSourceWith loadTransactionMeta loadTransactionData arrayBuffer).

Lemma getContractMetaWith_run id s tx w address tags :
  loadTransactionMeta id (world s) = (Ok tx, w) →
  Zod.parse transactionSchema tx = Ok (transaction address tags) →
  getContractMetaWith id s =
  (contractMeta (transaction address tags),
   State w (calls s ++ [Call "loadTransactionMeta" id])).
Proof.
  intros Hmeta Hparse.
  unfold LoadSrc.getContractMetaWith, map, chain, attempt.
  rewrite invoke_run, Hmeta. simpl. rewrite Hparse.
  by rewrite pick_transaction.
Qed.

(** The load, once the store has answered with a transaction the schema
    accepts. *)
Lemma loadSourceWith_run ctx id s tx w address tags :
  member ctx "id" = Ok id →
  loadTransactionMeta id (world s) = (Ok tx, w) →
  Zod.parse transactionSchema tx = Ok (transaction address tags) →
  loadSourceWith ctx s =
  let s1 := State w (calls s ++ [Call "loadTransactionMeta" id]) in
  match stopped tags, lastTag "Contract-Src" tags with
  | Some _, _ | None, None => (Throw (ZodError [required]), s1)
  | None, Some "" => (Throw (ZodError [notPresent]), s1)
  | None, Some srcId =>
      map (getSourceBufferWith (VStr srcId))
        (λ src, Zod.parse srcSchema
                  (VObj (literal (spread ctx)
                           [("src", src); ("owner", VStr address)]))) s1
  end.
Proof.
  intros Hid Hmeta Hparse.
  unfold LoadSrc.loadSourceWith, map.
  unfold chain at 1 2 3. unfold attempt at 1. rewrite Hid.
  rewrite (getContractMetaWith_run _ _ _ _ _ _ Hmeta Hparse).
  rewrite contractMeta_transaction.
  destruct (stopped tags) as [before|]; [done|].
  destruct (lastTag "Contract-Src" tags) as [[|c v]|]; [done| |done].
  unfold chain, attempt. simpl.
  destruct (getSourceBufferWith _ _) as [[src|e] s2]; done.
Qed.

Lemma getSourceBufferWith_calls srcId s :
  calls (getSourceBufferWith srcId s).2 =
  calls s ++ [Call "loadTransactionData" srcId].
Proof.
  unfold LoadSrc.getSourceBufferWith, chain. rewrite invoke_run.
  destruct (loadTransactionData _ _) as [[res|e] w]; simpl; [|done].
  unfold fromPromise. simpl. by destruct (arrayBuffer res w).
Qed.

Lemma loadSourceWith_Ok ctx s r s' :
  loadSourceWith ctx s = (Ok r, s') →
  ∃ src owner,
    Zod.parse srcSchema
      (VObj (literal (spread ctx) [("src", src); ("owner", owner)])) = Ok r.
Proof.
  unfold LoadSrc.loadSourceWith, map, chain, attempt.
  destruct (member ctx "id") as [id|]; [|discriminate].
  destruct (getContractMetaWith id s) as [[meta|] s1]; [|discriminate].
  destruct (member meta "owner") as [owner|]; [|discriminate].
  destruct (member meta "srcId") as [srcId|]; [|discriminate].
  destruct (getSourceBufferWith srcId s1) as [[src|] s2]; [|discriminate].
  destruct (Zod.parse srcSchema _) as [r'|] eqn:Hparse; [|discriminate].
  intros [= <- <-]. eauto.
Qed.


(** C6, on all the tags a transaction can have. The loader first asks the
    store for the transaction of the id of the context. When the store
    answers with a transaction the schema accepts, its owner and tags
    decide. Without a Contract-Src tag, or with an empty one, the load is
    rejected with the error of the check of the tag, and nothing more is
    asked of the store. With one, the data of the transaction that the last
    such tag names is fetched, and the load goes on with it, unless a tag
    stops the [reduce] over the tags: then the load is rejected as if there
    were no Contract-Src tag, and nothing is fetched, whatever Contract-Src
    tags there are. *)
Theorem loadSource_requires_contract_src ctx id s tx w address tags :
  member ctx "id" = Ok id →
  loadTransactionMeta id (world s) = (Ok tx, w) →
  Zod.parse transactionSchema tx = Ok (transaction address tags) →
  let s1 := State w (calls s ++ [Call "loadTransactionMeta" id]) in
  match stopped tags, lastTag "Contract-Src" tags with
  | Some _, _ | None, None =>
      loadSourceWith ctx s = (Throw (ZodError [required]), s1)
  | None, Some "" =>
      loadSourceWith ctx s = (Throw (ZodError [notPresent]), s1)
  | None, Some srcId =>
      loadSourceWith ctx s =
        map (getSourceBufferWith (VStr srcId))
          (λ src, Zod.parse srcSchema
                    (VObj (literal (spread ctx)
                             [("src", src); ("owner", VStr address)]))) s1 ∧
      calls (loadSourceWith ctx s).2 =
        calls s ++ [Call "loadTransactionMeta" id;
                    Call "loadTransactionData" (VStr srcId)]
  end.
Proof.
  intros Hid Hmeta Hparse.
  rewrite (loadSourceWith_run _ _ _ _ _ _ _ Hid Hmeta Hparse).
  destruct (stopped tags) as [before|]; [done|].
  destruct (lastTag "Contract-Src" tags) as [[|c v]|]; simpl; [done| |done].
  split; [done|].
  rewrite map_state, getSourceBufferWith_calls. simpl.
  by rewrite <-app_assoc.
Qed.


(** C10, on all the tags a transaction can have. As long as no tag stops
    the [reduce], the tags are folded, in their order, into an object in
    which every name has the value of the last tag of the name; the source
    id is the value of the last Contract-Src tag, and it is the
    transaction whose data is fetched. A tag named
    ['@@transducer/reduced'] with a value that is not empty stops the
    [reduce]: the tags after it are not folded, the result is the value of
    the last ['@@transducer/value'] tag before it, or [undefined], and
    nothing is fetched. *)
Theorem loadSource_uses_last_contract_src ctx id s tx w address tags :
  member ctx "id" = Ok id →
  loadTransactionMeta id (world s) = (Ok tx, w) →
  Zod.parse transactionSchema tx = Ok (transaction address tags) →
  let s1 := State w (calls s ++ [Call "loadTransactionMeta" id]) in
  match stopped tags with
  | None =>
      tagsToObject (prop "tags" (transaction address tags))
        = Ok (VObj (tagsObject tags)) ∧
      (∀ name, name ≠ "__proto__" →
               tagsObject tags !! name = VStr <$> lastTag name tags) ∧
      ∀ srcId, lastTag "Contract-Src" tags = Some srcId → srcId ≠ "" →
        getContractMetaWith id s =
          (Ok (obj [("srcId", VStr srcId); ("owner", VStr address)]), s1) ∧
        callsTo "loadTransactionData" (calls (loadSourceWith ctx s).2) =
          callsTo "loadTransactionData" (calls s) ++ [VStr srcId]
  | Some before =>
      tagsToObject (prop "tags" (transaction address tags))
        = Ok (default VUndefined
                (VStr <$> lastTag "@@transducer/value" before)) ∧
      getContractMetaWith id s = (Throw (ZodError [required]), s1) ∧
      callsTo "loadTransactionData" (calls (loadSourceWith ctx s).2) =
        callsTo "loadTransactionData" (calls s)
  end.
Proof.
  intros Hid Hmeta Hparse s1.
  change (prop "tags" (transaction address tags)) with (VArr (tag <$> tags)).
  pose proof (loadSourceWith_run _ _ _ _ _ _ _ Hid Hmeta Hparse) as Hrun.
  pose proof (getContractMetaWith_run _ _ _ _ _ _ Hmeta Hparse) as Hget.
  rewrite contractMeta_transaction in Hget.
  destruct (stopped tags) as [before|] eqn:Hstop.
  - split; [by apply tagsToObject_stopped|]. split; [done|].
    rewrite Hrun. simpl. by rewrite callsTo_snoc, app_nil_r.
  - split; [by rewrite tagsToObject_tags, Hstop|].
    split; [intros name Hname; by apply lookup_tagsObject|].
    intros srcId Hlast Hne. rewrite Hlast in Hrun, Hget.
    destruct srcId as [|c v]; [done|]. split; [done|].
    rewrite Hrun. cbv zeta.
    rewrite map_state, getSourceBufferWith_calls. simpl.
    by rewrite !callsTo_snoc, app_nil_r.
Qed.


(** C9, as amended. What a successful load returns is an object with the
    owner, a string, and the source, which is truthy. Of the other
    properties of the context, it has those whose value is not
    [undefined], with their value, but not one named [__proto__]; and it
    has no other property. *)
Theorem loadSource_keeps_context ctx s r s' :
  loadSourceWith ctx s = (Ok r, s') →
  ∃ out owner src,
    r = VObj out ∧
    out !! "owner" = Some (VStr owner) ∧
    out !! "src" = Some src ∧
    truthy src = true ∧
    ∀ k, k ≠ "owner" → k ≠ "src" →
      out !! k =
      match spread ctx !! k with
      | Some x =>
          if is_undefined x || String.eqb k "__proto__" then None else Some x
      | None => None
      end.
Proof.
  intros (src & owner & Hparse)%loadSourceWith_Ok.
  apply parse_srcSchema in Hparse
    as (owner' & out & -> & Ho & Hs & Hoo & Hos & Hrest).
  unfold literal in *. simpl in *. unfold get in Hs, Hos.
  rewrite lookup_insert_ne, lookup_insert_eq in Hs, Hos by done.
  simpl in *.
  exists out, owner', src. do 4 (split; [done|]).
  intros k H1 H2. rewrite (Hrest k H1 H2), !lookup_insert_ne by done.
  by destruct (spread ctx !! k).
Qed.
End facts.


(** C6 on tags that name the source and stop the [reduce]: the load is
    rejected as if the source were not named. *)
Lemma loadSource_requires_contract_src_witness :
  let ctx := obj [("id", VStr "process-1")] in
  lastTag "Contract-Src" Cases.interrupted = Some "source-2" ∧
  stopped Cases.interrupted = Some [("Contract-Src", "source-1")] ∧
  Cases.loadTagged Cases.interrupted ctx
  = (Throw (ZodError [Issue "invalid_type" [] "Required"]),
     State () [Call "loadTransactionMeta" (VStr "process-1")]).
Proof.
  intros ctx.
  split; [vm_compute; reflexivity|]. split; [reflexivity|].
  exact (loadSource_requires_contract_src (Cases.tagged Cases.interrupted)
           Sample.loadTransactionData Sample.arrayBuffer ctx
           (VStr "process-1") (State () []) _ () "owner-1" Cases.interrupted
           eq_refl eq_refl (parse_transaction "owner-1" Cases.interrupted)).
Defined.


(** C10 on tags that name the source twice, after a tag that gives the
    [reduce] its result and around one that stops it: neither source is
    fetched. *)
Lemma loadSource_uses_last_contract_src_witness :
  let ctx := obj [("id", VStr "process-1")] in
  stopped Cases.diverted
    = Some [("@@transducer/value", "source-0"); ("Contract-Src", "source-1")] ∧
  tagsToObject (VArr (tag <$> Cases.diverted)) = Ok (VStr "source-0") ∧
  callsTo "loadTransactionData"
    (calls (Cases.loadTagged Cases.diverted ctx).2) = [].
Proof.
  intros ctx. split; [reflexivity|].
  destruct (loadSource_uses_last_contract_src (Cases.tagged Cases.diverted)
              Sample.loadTransactionData Sample.arrayBuffer ctx
              (VStr "process-1") (State () []) _ () "owner-1" Cases.diverted
              eq_refl eq_refl (parse_transaction "owner-1" Cases.diverted))
    as (Hfold & _ & Hcalls).
  split; [exact Hfold|exact Hcalls].
Defined.


(** C9 fails: a property of the context whose value is [undefined] is not
    in what the load returns, and neither is a property named
    [__proto__]. *)
Lemma loadSource_drops_undefined_properties :
  (spread Sample.context !! "stats" = Some VUndefined ∧
   (Sample.loadSource Sample.context).1 = Ok Sample.withSource ∧
   spread Sample.withSource !! "stats" = None) ∧
  (spread Cases.crafted !! "__proto__" = Some (obj [("admin", VBool true)]) ∧
   (Sample.loadSource Cases.crafted).1 = Ok Cases.craftedWithSource ∧
   spread Cases.craftedWithSource !! "__proto__" = None).
Proof. repeat split; vm_compute; reflexivity. Qed.


(** The amended C9 on a context with four properties, one of them
    [undefined]. *)
Lemma loadSource_keeps_context_witness :
  Sample.loadSource Sample.context
    = (Ok Sample.withSource,
       State () [Call "loadTransactionMeta" (VStr "process-1");
                 Call "loadTransactionData" (VStr "source-2")]) ∧
  ∀ k, k ≠ "owner" → k ≠ "src" →
    spread Sample.withSource !! k =
    match spread Sample.context !! k with
    | Some x =>
        if is_undefined x || String.eqb k "__proto__" then None else Some x
    | None => None
    end.
Proof.
  assert (Sample.loadSource Sample.context
          = (Ok Sample.withSource,
             State () [Call "loadTransactionMeta" (VStr "process-1");
                       Call "loadTransactionData" (VStr "source-2")])) as H
    by (vm_compute; reflexivity).
  split; [exact H|].
  destruct (loadSource_keeps_context Sample.loadTransactionMeta
              Sample.loadTransactionData Sample.arrayBuffer Sample.context
              (State () []) _ _ H)
    as (out & owner & src & Hout & _ & _ & _ & Hkeep).
  intros k H1 H2. rewrite Hout. exact (Hkeep k H1 H2).
Defined.

End LoadSrcFacts.

(** ** The messenger's module *)

Module MuDomainFacts.
Import MuDomain.

Section facts.
Variable V : Type.
Variable config_sequencerUrl : V.
Variable createLogger : string → V.
Variable pouchDb : string → V.
Variable findLatestTxWith saveTxWith saveMsgWith saveSpawnWith : list (string * V) → V.
Variable updateMsgWith findLatestMsgsWith findLatestSpawnsWith : list (string * V) → V.
Variable selectNode result : V.
Variable findTxWith writeInteractionWith writeContractTxWith : list (string * V) → V.
Variable buildAndSignWith : list V → V.
Variable initMsgsWith processMsgWith crankMsgsWith processSpawnWith : list (string * V) → V.

Notation imported :=
  (imported V config_sequencerUrl createLogger pouchDb findLatestTxWith
   saveTxWith saveMsgWith saveSpawnWith updateMsgWith findLatestMsgsWith
   findLatestSpawnsWith selectNode result findTxWith writeInteractionWith
   writeContractTxWith buildAndSignWith initMsgsWith processMsgWith
   crankMsgsWith processSpawnWith).


(** C7, as amended. The module exports [crankMsgs], built by
    [crankMsgsWith] from [processMsg], [processSpawn] and the logger, and
    [initMsgs]; it exports nothing else: [processMsg] and [processSpawn]
    are private to it. *)
Theorem crankMsgs_wraps_private_operations :
  imported "crankMsgs" =
  Some (crankMsgsWith
          [("processMsg",
            processMsg V config_sequencerUrl createLogger pouchDb
              findLatestTxWith saveTxWith saveMsgWith saveSpawnWith
              updateMsgWith findLatestMsgsWith findLatestSpawnsWith
              selectNode result findTxWith writeInteractionWith
              buildAndSignWith processMsgWith);
           ("processSpawn",
            processSpawn V config_sequencerUrl createLogger
              writeContractTxWith processSpawnWith);
           ("logger", logger V createLogger)]) ∧
  imported "processMsg" = None ∧
  imported "processSpawn" = None ∧
  ∀ name, is_Some (imported name) ↔ name = "initMsgs" ∨ name = "crankMsgs".
Proof.
  split; [reflexivity|]. split; [reflexivity|]. split; [reflexivity|].
  intros name. unfold MuDomain.imported, exports. simpl.
  rewrite fmap_is_Some.
  destruct (decide ("initMsgs" = name)) as [<-|H1]; simpl.
  { split; [by left|by eexists]. }
  destruct (decide ("crankMsgs" = name)) as [<-|H2]; simpl.
  { split; [by right|by eexists]. }
  split; [by intros [? ?]|by intros [->| ->]].
Qed.
End facts.

(** C7 fails: neither [processMsg] nor [processSpawn] can be imported from
    the module. *)
Lemma per_effect_operations_not_exported :
  Sample.imported "processMsg" = None ∧ Sample.imported "processSpawn" = None.
Proof. split; reflexivity. Qed.

End MuDomainFacts.

(** ** Replay, checkpoints and what a dry run leaves behind *)

Module EngineFacts.
Import Js Async DryRun JsFacts AsyncFacts DryRunFacts.

(** What [omit] leaves of a value that is not the placeholder. *)
Lemma lookup_omit names v k :
  placeholder v = false →
  spread (omit names v) !! k =
  if bool_decide (k ∈ "__proto__" :: names) then None else spread v !! k.
Proof.
  intros Hp. unfold omit. rewrite Hp. cbn [spread].
  induction names as [|n names IH]; cbn [foldr].
  - destruct (decide (k = "__proto__")) as [->|Hne].
    + rewrite lookup_delete_eq, bool_decide_eq_true_2; [done|left].
    + rewrite lookup_delete_ne, bool_decide_eq_false_2; [done| |done].
      by intros [?|?%elem_of_nil]%elem_of_cons.
  - destruct (decide (n = k)) as [->|Hne].
    + rewrite lookup_delete_eq, bool_decide_eq_true_2; [done|].
      right. left.
    + rewrite lookup_delete_ne, IH by done.
      destruct (decide (k ∈ "__proto__" :: names)) as [Hin|Hout].
      * rewrite !bool_decide_eq_true_2; [done| |done].
        apply elem_of_cons in Hin as [->|Hin]; [left|by do 2 right].
      * rewrite !bool_decide_eq_false_2; [done| |done].
        intros [->|[?|?]%elem_of_cons]%elem_of_cons; [|done|].
        -- apply Hout. left.
        -- apply Hout. by right.
Qed.

Section engine.
Variable messageSchema_shape : list (string * Zod.schema).
Variable messageSchema_unknown : Zod.unknownKeys.
Variable message_shape : list (string * Zod.schema).
Variable message_unknown : Zod.unknownKeys.
Variable transition : value → value → value → result value.
Variable findMessageMeta fetchModule : value → result value.
Variable messages : string → list value.
Variable moduleOf : string → result value.
Variable genesis : value.
Variable annotations : string → nat → gmap string value.

Notation schema :=
  (dryRunMessageSchema messageSchema_shape messageSchema_unknown
     message_shape message_unknown).
Notation dryRunMessage :=
  (dryRunMessage messageSchema_shape messageSchema_unknown
     message_shape message_unknown).
Notation fold := (Engine.fold transition).
Notation evaluate := (Engine.evaluate transition).
Notation scheduled := (Engine.scheduled messages).
Notation point := (Engine.point messages).
Notation evaluated := (Engine.evaluated annotations).
Notation answer := (Engine.answer annotations).
Notation replay :=
  (Engine.replay transition messages moduleOf genesis annotations).
Notation readState :=
  (Engine.readState transition messages moduleOf genesis annotations).
Notation valid := (Engine.valid transition messages moduleOf genesis).
Notation upTo a :=
  (chain (messageMeta (Engine.lookup findMessageMeta) a) (readUpTo readState)).
Notation withModule := (withModule (Engine.lookup fetchModule)).
Notation dryRunWith :=
  (dryRunWith messageSchema_shape messageSchema_unknown message_shape
     message_unknown (Engine.lookup findMessageMeta)
     (Engine.lookup fetchModule) readState evaluate).
Notation dryRuns :=
  (dryRuns messageSchema_shape messageSchema_unknown message_shape
     message_unknown (Engine.lookup findMessageMeta)
     (Engine.lookup fetchModule) readState evaluate).

Hypothesis kept :
  keepsNoSave messageSchema_shape messageSchema_unknown message_shape
    message_unknown.

(** *** The fold *)

Lemma fold_folded module state l m :
  m ∈ (fold module state l).1.2 → m ∈ l.
Proof.
  revert state. induction l as [|x rest IH]; intros state; simpl.
  - by intros ?%elem_of_nil.
  - destruct (transition module state x) as [state'|e]; simpl;
    [|by intros ?%elem_of_nil].
    specialize (IH state').
    destruct (fold module state' rest) as [[final folded] fault].
    simpl in *. intros [->|Hin]%elem_of_cons; [left|right; auto].
Qed.

(** The messages folded are the first of the messages, and folding them
    alone gives the same state, without an error. *)
Lemma fold_prefix module state l s folded fault :
  fold module state l = (s, folded, fault) →
  fold module state folded = (s, folded, None) ∧ ∃ rest, l = folded ++ rest.
Proof.
  revert state s folded fault.
  induction l as [|x rest IH]; intros state s folded fault; cbn [Engine.fold].
  - intros [= <- <- <-]. split; [done|by exists []].
  - destruct (transition module state x) as [state'|e] eqn:Hx.
    + destruct (fold module state' rest) as [[final f] fault'] eqn:Hrest.
      intros [= <- <- <-].
      destruct (IH _ _ _ _ Hrest) as [Hf [rest' ->]].
      split; [|by exists rest'].
      cbn [Engine.fold]. by rewrite Hx, Hf.
    + intros [= <- <- <-]. split; [done|by exists (x :: rest)].
Qed.

Lemma fold_app module state l1 l2 s1 :
  fold module state l1 = (s1, l1, None) →
  fold module state (l1 ++ l2) =
  let '(s2, folded, fault) := fold module s1 l2 in (s2, l1 ++ folded, fault).
Proof.
  revert state. induction l1 as [|x l1 IH]; intros state; cbn [Engine.fold].
  - intros [= <-]. simpl. by destruct (fold module state l2) as [[? ?] ?].
  - rewrite <-app_comm_cons. cbn [Engine.fold].
    destruct (transition module state x) as [state'|e]; [|discriminate].
    destruct (fold module state' l1) as [[final f] fault'] eqn:Hrest.
    intros [= -> -> ->]. rewrite (IH _ Hrest).
    by destruct (fold module s1 l2) as [[? ?] ?].
Qed.

(** *** The log *)

Lemma length_scheduled pid : length (scheduled pid) = length (messages pid).
Proof. unfold Engine.scheduled. by rewrite length_imap. Qed.

Lemma scheduled_ordinate pid i m :
  scheduled pid !! i = Some m → prop "ordinate" m = VStr (pretty (S i)).
Proof.
  unfold Engine.scheduled. rewrite list_lookup_imap.
  destruct (messages pid !! i) as [m'|]; [|discriminate].
  intros [= <-]. unfold prop. simpl. unfold get. by rewrite lookup_insert_eq.
Qed.

Lemma point_le pid x : point pid x ≤ length (messages pid).
Proof.
  unfold Engine.point.
  destruct (List.find _ _) as [k|] eqn:Hf; simpl; [|done].
  apply find_some in Hf as [Hin _]. apply in_seq in Hin. lia.
Qed.

(** *** The checkpoints *)

Lemma findExact_Some pid n w c :
  Engine.findExact pid n w = Some c →
  c ∈ w ∧ Engine.cp_process c = pid ∧ Engine.cp_ordinate c = pretty n.
Proof.
  unfold Engine.findExact. intros [Hin [H1 H2]%andb_prop]%find_some.
  apply list_elem_of_In in Hin. rewrite elem_of_reverse in Hin.
  apply String.eqb_eq in H1. apply String.eqb_eq in H2. done.
Qed.

Lemma findLatest_Some pid n w m c :
  Engine.findLatest pid n w = Some (m, c) →
  m ≤ n ∧ Engine.findExact pid m w = Some c.
Proof.
  induction n as [|n IH]; cbn [Engine.findLatest].
  - destruct (Engine.findExact pid 0 w) as [c'|] eqn:Hf; [|discriminate].
    by intros [= <- <-].
  - destruct (Engine.findExact pid (S n) w) as [c'|] eqn:Hf.
    + by intros [= <- <-].
    + intros [? ?]%IH. split; [lia|done].
Qed.

Lemma valid_checkpoint w pid m c :
  valid w → Engine.findExact pid m w = Some c →
  moduleOf pid = Ok (Engine.cp_module c) ∧
  fold (Engine.cp_module c) genesis (take m (scheduled pid))
  = (Engine.cp_state c, take m (scheduled pid), None).
Proof.
  intros Hv (Hin & <- & Ho)%findExact_Some.
  destruct (Hv c Hin) as (k & Hk & Hm & Hf).
  rewrite Ho in Hk. apply (inj pretty) in Hk as <-. done.
Qed.


(** *** What [readState] evaluates *)

Notation context pid module state msgs :=
  (obj [("id", VStr pid); ("module", module); ("output", state);
        ("messages", VStream msgs None)]).

Lemma evaluate_context pid module state msgs w :
  evaluate (context pid module state msgs) w =
  let '(s, folded, fault) := fold module state msgs in
  (Ok (VObj (<["output" := Engine.reported s fault]>
               (spread (context pid module state msgs)))),
   if existsb (λ m, negb (truthy (prop "noSave" m))) folded
   then w ++ [Engine.Checkpoint pid
                (to_string (prop "ordinate" (default VUndefined (last folded))))
                s module]
   else w).
Proof.
  unfold Engine.evaluate, Engine.save.
  change (prop "messages" (context pid module state msgs))
    with (VStream msgs None).
  cbv iota beta.
  change (prop "module" (context pid module state msgs)) with module.
  change (prop "output" (context pid module state msgs)) with state.
  change (to_string (prop "id" (context pid module state msgs))) with pid.
  reflexivity.
Qed.

(** The messages folded after a checkpoint at [m]: the last has the
    ordinate of their number after [m]. *)
Lemma folded_segment pid m n folded rest :
  take (n - m) (drop m (scheduled pid)) = folded ++ rest →
  folded = take (length folded) (drop m (scheduled pid)) ∧
  (folded ≠ [] →
   to_string (prop "ordinate" (default VUndefined (last folded)))
   = pretty (m + length folded)).
Proof.
  intros Hseg.
  assert (folded = take (length folded) (drop m (scheduled pid))) as Hf.
  { rewrite <-(take_app_length folded rest) at 1. rewrite <-Hseg, take_take.
    f_equal. apply (f_equal length) in Hseg.
    rewrite length_take, length_app in Hseg. lia. }
  split; [done|]. intros Hne.
  rewrite last_lookup.
  destruct folded as [|x folded'] eqn:E; [done|]. rewrite <-E in *.
  assert (length folded = S (length folded')) as Hl by (by rewrite E).
  rewrite Hl. cbn [pred].
  destruct (folded !! length folded') as [msg|] eqn:Hmsg.
  2:{ apply lookup_ge_None in Hmsg. lia. }
  cbn [default]. rewrite Hf, lookup_take_lt, lookup_drop in Hmsg by lia.
  unfold id. rewrite (scheduled_ordinate _ _ _ Hmsg). cbn [to_string].
  f_equal. lia.
Qed.

(** A replay from a valid starting point gives what the replay from the
    genesis state gives, and saves a valid checkpoint if it saves one. *)
Lemma evaluate_from pid n m module state w :
  m ≤ n →
  moduleOf pid = Ok module →
  fold module genesis (take m (scheduled pid))
    = (state, take m (scheduled pid), None) →
  valid w →
  let run :=
    evaluate
      (context pid module state (take (n - m) (drop m (scheduled pid)))) w in
  ∃ res,
    run.1 = Ok res ∧
    Ok (VObj (delete "module" (evaluated pid n (prop "output" res))))
    = replay pid n ∧
    valid run.2.
Proof.
  intros Hle Hmod Hstart Hv run. unfold run. rewrite evaluate_context.
  destruct (fold module state (take (n - m) (drop m (scheduled pid))))
    as [[s folded] fault] eqn:Hfold.
  eexists. split; [reflexivity|]. split.
  - unfold Engine.replay. rewrite Hmod.
    replace (take n (scheduled pid))
      with (take m (scheduled pid) ++ take (n - m) (drop m (scheduled pid))).
    2:{ rewrite take_take_drop. f_equal. lia. }
    rewrite (fold_app _ _ _ _ _ Hstart), Hfold.
    by do 4 f_equal.
  - cbn [snd]. destruct (existsb _ folded) eqn:He; [|done].
    intros c [Hin| ->%list_elem_of_singleton]%elem_of_app; [by apply Hv|].
    cbn [Engine.cp_process Engine.cp_ordinate Engine.cp_state Engine.cp_module].
    destruct (fold_prefix _ _ _ _ _ _ Hfold) as [Hf [rest Hrest]].
    destruct (folded_segment pid m n folded rest Hrest) as [Htake Hord].
    exists (m + length folded).
    split; [apply Hord; by destruct folded|]. split; [done|].
    rewrite <-take_take_drop, <-Htake.
    by rewrite (fold_app _ _ _ _ _ Hstart), Hf.
Qed.

(** On a store whose checkpoints are valid, [readState] returns what the
    replay from the genesis state gives, with or without the module, and
    leaves the checkpoints valid. *)
Lemma readState_replays x w :
  valid w →
  let pid := to_string (prop "processId" x) in
  Engine.evaluation (readState x w).1 = replay pid (point pid x) ∧
  valid (readState x w).2.
Proof.
  intros Hv pid. unfold Engine.readState. fold pid.
  set (n := point pid x). cbv zeta.
  destruct (Engine.findExact pid n w) as [c|] eqn:Hexact.
  - destruct (valid_checkpoint w pid n c Hv Hexact) as [Hm Hf].
    split; [|done]. unfold Engine.replay. rewrite Hm, Hf.
    cbn [fst Engine.evaluation Engine.answer spread Engine.reported].
    by rewrite delete_delete_eq.
  - destruct (Engine.findLatest pid n w) as [[m c]|] eqn:Hlatest.
    + apply findLatest_Some in Hlatest as [Hle Hex].
      destruct (valid_checkpoint w pid m c Hv Hex) as [Hm Hf].
      cbn [fmap option_fmap option_map default fst snd compose].
      destruct (evaluate_from pid n m _ _ w Hle Hm Hf Hv)
        as (res & Hres & Hreplay & Hvalid).
      destruct (evaluate _ w) as [[res'|e] w'] eqn:Hrun; [|discriminate].
      cbn [fst snd] in *. injection Hres as ->.
      split; [|done]. rewrite <-Hreplay.
      cbn [Engine.evaluation Engine.answer spread].
      by rewrite delete_insert_eq.
    + cbn [fmap option_fmap option_map default fst snd compose].
      destruct (moduleOf pid) as [module|e] eqn:Hm.
      2:{ split; [|done]. unfold Engine.replay. by rewrite Hm. }
      assert (fold module genesis (take 0 (scheduled pid))
              = (genesis, take 0 (scheduled pid), None)) as Hf by done.
      destruct (evaluate_from pid n 0 _ _ w (Nat.le_0_l n) Hm Hf Hv)
        as (res & Hres & Hreplay & Hvalid).
      destruct (evaluate _ w) as [[res'|e] w'] eqn:Hrun; [|discriminate].
      cbn [fst snd] in *. injection Hres as ->.
      split; [|done]. rewrite <-Hreplay.
      cbn [Engine.evaluation Engine.answer spread].
      by rewrite delete_insert_eq.
Qed.

(** *** What a dry run leaves behind *)

(** The evaluator saves nothing when every message of the stream is
    flagged. *)
Lemma evaluate_flagged ctx msgs failure w :
  prop "messages" ctx = VStream msgs failure →
  (∀ m, m ∈ msgs → truthy (prop "noSave" m) = true) →
  (evaluate ctx w).2 = w.
Proof.
  intros Hstream Hflag. unfold Engine.evaluate. rewrite Hstream.
  pose proof (fold_folded (prop "module" ctx) (prop "output" ctx) msgs)
    as Hsub.
  destruct (fold _ _ _) as [[state folded] fault]. simpl in Hsub.
  assert (existsb (λ m, negb (truthy (prop "noSave" m))) folded = false) as ->.
  { apply not_true_is_false. intros (m & Hin & Hm)%existsb_exists.
    apply list_elem_of_In, Hsub, Hflag in Hin. by rewrite Hin in Hm. }
  by destruct failure.
Qed.

Lemma dryRunMessage_flagged a readStateRes m :
  dryRunMessage a readStateRes = Ok m → truthy (prop "noSave" m) = true.
Proof using kept.
  unfold DryRun.dryRunMessage.
  destruct (dryRunInput a readStateRes) as [input|] eqn:Hin; [|discriminate].
  simpl. intros Hparse. apply (kept _ _ Hparse).
  by apply dryRunInput_shape in Hin as [-> _].
Qed.

Lemma evaluate_dryRunMessage a readStateRes ctx w :
  (evaluate
     (VObj (literal (spread ctx)
            [("messages", Readable_from (dryRunMessage a readStateRes))]))
     w).2 = w.
Proof using kept.
  destruct (dryRunMessage a readStateRes) as [m|e] eqn:Hm.
  - eapply evaluate_flagged.
    + unfold prop, literal. simpl. unfold get. by rewrite lookup_insert_eq.
    + intros m' ->%list_elem_of_singleton. by eapply dryRunMessage_flagged.
  - eapply evaluate_flagged.
    + unfold prop, literal. simpl. unfold get. by rewrite lookup_insert_eq.
    + by intros m' ?%elem_of_nil.
Qed.

Lemma withModule_world ctx s : world (withModule ctx s).2 = world s.
Proof.
  unfold DryRun.withModule, chain, attempt.
  destruct (member ctx "module") as [module|]; [|done]. simpl.
  by destruct (truthy module).
Qed.

(** A dry run leaves the store as its [readState] left it. *)
Lemma dryRunWith_world a s :
  world (dryRunWith a s).2 = world (upTo a s).2.
Proof using kept.
  rewrite dryRunWith_state.
  destruct (upTo a s) as [[readStateRes|e] s1]; [|done].
  pose proof (withModule_world readStateRes s1) as Hw.
  destruct (withModule readStateRes s1) as [[ctx|e] s2]; [|exact Hw].
  cbv zeta. cbn [world]. rewrite evaluate_dryRunMessage. exact Hw.
Qed.

Lemma readUpTo_valid res s :
  valid (world s) → valid (world (readUpTo readState res s).2).
Proof.
  intros Hv. unfold DryRun.readUpTo, chain, attempt.
  destruct (member res "processId"); simpl; [|done].
  destruct (member res "timestamp"); simpl; [|done].
  destruct (member res "nonce"); simpl; [|done].
  rewrite invoke_run. simpl. by apply readState_replays.
Qed.

Lemma upTo_valid a s : valid (world s) → valid (world (upTo a s).2).
Proof.
  intros Hv. unfold chain at 1, DryRun.messageMeta.
  destruct (truthy (messageTxId a)).
  - rewrite invoke_run. unfold Engine.lookup at 1 2. simpl.
    destruct (findMessageMeta _); [|done]. by apply readUpTo_valid.
  - by apply readUpTo_valid.
Qed.

(** Dry runs keep the checkpoints valid. *)
Lemma dryRuns_valid l w : valid w → valid (dryRuns l w).
Proof using kept.
  revert w. induction l as [|a l IH]; intros w Hv; [done|].
  simpl. apply IH. rewrite dryRunWith_world. by apply upTo_valid.
Qed.


End engine.

Lemma sample_keepsNoSave :
  keepsNoSave Sample.messageSchema_shape Zod.strip Sample.message_shape Zod.strip.
Proof.
  intros input m Hparse Hflag.
  apply ZodFacts.parse_Ok in Hparse.
  unfold dryRunMessageSchema in Hparse.
  rewrite ZodFacts.safeParse_object in Hparse.
  destruct (Zod.properties input) as [props|] eqn:Hp; [|discriminate].
  rewrite (ZodFacts.prop_properties _ _ _ Hp) in Hflag by done.
  cbn [Zod.safeParse Zod.properties] in Hparse.
  destruct (Zod.parseFields _ _ _) as [out [issues|]] eqn:Hfields;
    [discriminate|].
  injection Hparse as <-.
  destruct (ZodFacts.parseFields_lookup _ _ _ "noSave"
              (Sample.optional Sample.boolean) Hfields)
    as (y & Hy & Hout); [by rewrite ZodFacts.field_extend|].
  rewrite Hflag in Hy. injection Hy as <-.
  unfold prop. simpl. unfold get. by rewrite Hout.
Qed.





End EngineFacts.

(** * Further properties *)

(** ** Schemas *)

Module ZodMore.
Import Js Zod ZodFacts.

Lemma field_unique k s s0 (shape : list (String.string * schema)) :
  NoDup shape.*1 → field k shape = Some s0 → (k, s) ∈ shape → s = s0.
Proof.
  induction shape as [|[k' s'] rest IH]; simpl; [by intros _ _ ?%elem_of_nil|].
  intros [Hnot Hnd]%NoDup_cons.
  destruct (String.eqb_spec k k') as [->|Hne].
  - intros [= <-] [[= ->]|Hin]%elem_of_cons; [done|].
    exfalso. apply Hnot. apply list_elem_of_fmap. by exists (k', s).
  - intros Hf [[= -> _]|Hin]%elem_of_cons; [done|auto].
Qed.

(** In an extended shape, a key of the augmentation has the schema the
    augmentation gives it, wherever it stands. *)
Lemma extend_uniform base augmentation k s s0 :
  NoDup augmentation.*1 →
  field k augmentation = Some s0 →
  (k, s) ∈ extend base augmentation → s = s0.
Proof.
  intros Hnd Hk. unfold extend.
  intros [Hin|Hin]%elem_of_app.
  - apply list_elem_of_fmap in Hin as ([k' s'] & [= -> ->] & _).
    simpl. by rewrite Hk.
  - apply list_elem_of_filter in Hin as [_ Hin]. by eapply field_unique.
Qed.

Lemma extend_key base augmentation k s0 :
  field k augmentation = Some s0 → k ∈ (extend base augmentation).*1.
Proof.
  intros Hk. apply field_is_Some. rewrite field_extend, Hk. by eexists.
Qed.

Lemma parseFields_dom {S} (parseWith : S → value → parsed) props
    (shape : list (String.string * S)) k :
  is_Some ((parseFields parseWith props shape).1 !! k) → k ∈ shape.*1.
Proof.
  induction shape as [|[k' s'] rest IH]; cbn [parseFields].
  - simpl. rewrite lookup_empty. by intros [? ?].
  - destruct (parseFields parseWith props rest) as [out issues].
    simpl in IH. destruct (decide (k = k')) as [->|Hne]; [by left|].
    intros H. right. apply IH.
    destruct (parseWith s' (get props k')); simpl in H; [|done].
    destruct (_ || _); [by rewrite lookup_insert_ne in H|done].
Qed.

Lemma is_undefined_eq v : is_undefined v = true → v = VUndefined.
Proof. by destruct v. Qed.

Lemma parseFields_get props shape out k s0 :
  (∀ s, (k, s) ∈ shape → s = s0) →
  k ∈ shape.*1 →
  parseFields safeParse props shape = (out, None) →
  ∃ y, safeParse s0 (get props k) = Valid y ∧ get out k = y.
Proof.
  revert out. induction shape as [|[k' s'] rest IH]; intros out Hs Hin;
    cbn [parseFields]; [by apply elem_of_nil in Hin|].
  pose proof (parseFields_dom safeParse props rest k) as Hdom.
  destruct (parseFields safeParse props rest) as [out' issues] eqn:Hrest.
  destruct (safeParse s' (get props k')) as [y'|here] eqn:Hk';
    [|unfold failed; discriminate].
  intros [= <- ->].
  assert (∀ s, (k, s) ∈ rest → s = s0) as Hs' by (intros s ?; apply Hs; by right).
  destruct (decide (k = k')) as [->|Hne].
  - assert (s' = s0) as -> by (apply Hs; left).
    exists y'. split; [done|].
    destruct (negb (is_undefined y')) eqn:Hu; simpl.
    { unfold get. by rewrite lookup_insert_eq. }
    apply negb_false_iff, is_undefined_eq in Hu as ->.
    case_bool_decide as Hp; [unfold get; by rewrite lookup_insert_eq|].
    destruct (decide (k' ∈ rest.*1)) as [Hr|Hr].
    + destruct (IH out' Hs' Hr eq_refl) as (y & Hy & Hget). congruence.
    + unfold get. destruct (out' !! k') eqn:Ho; [|done].
      exfalso. apply Hr, Hdom. simpl. by eexists.
  - apply elem_of_cons in Hin as [?|Hin]; [done|].
    destruct (IH out' Hs' Hin eq_refl) as (y & Hy & Hget).
    exists y. split; [done|].
    destruct (_ || _); [unfold get; by rewrite lookup_insert_ne|done].
Qed.

(** What an object schema returns reads, at a key of its shape, as what the
    schema of the key returns of the property. *)
Lemma object_get shape unknown v y k s0 :
  (∀ s, (k, s) ∈ shape → s = s0) →
  k ∈ shape.*1 →
  safeParse (object shape unknown) v = Valid y →
  ∃ props y0, properties v = Some props ∧
              safeParse s0 (get props k) = Valid y0 ∧ prop k y = y0.
Proof.
  intros Hs Hin. rewrite ZodFacts.safeParse_object.
  destruct (properties v) as [props|]; [|discriminate].
  cbn [safeParse properties].
  destruct (parseFields safeParse props shape) as [out issues] eqn:Hfields.
  assert (issues = None → ∃ y0, safeParse s0 (get props k) = Valid y0 ∧ get out k = y0)
    as Hout by (intros ->; by eapply parseFields_get).
  destruct unknown.
  - destruct issues; [discriminate|]. intros [= <-].
    destruct (Hout eq_refl) as (y0 & ? & ?). by exists props, y0.
  - destruct issues; [discriminate|]. intros [= <-].
    destruct (Hout eq_refl) as (y0 & Hy & Hget). exists props, y0.
    split; [done|]. split; [done|].
    unfold prop. simpl. rewrite <-Hget. unfold get.
    destruct (out !! k) eqn:Ho; [by erewrite lookup_union_Some_l|].
    rewrite lookup_union_r by done.
    rewrite LoadSrcFacts.lookup_defined, LoadSrcFacts.lookup_extraKeys.
    by rewrite bool_decide_eq_true_2.
  - case_bool_decide; [|by destruct issues].
    destruct issues; [discriminate|]. intros [= <-].
    destruct (Hout eq_refl) as (y0 & ? & ?). by exists props, y0.
Qed.
End ZodMore.

(** ** Dry runs *)

Module DryRunMore.
Import Js Async DryRun AsyncFacts DryRunFacts.

Section more.
Context {W : Type}.
Variable messageSchema_shape : list (string * Zod.schema).
Variable messageSchema_unknown : Zod.unknownKeys.
Variable message_shape : list (string * Zod.schema).
Variable message_unknown : Zod.unknownKeys.
Variable loadMessageMeta : value → W → result value * W.
Variable loadModule : value → W → result value * W.
Variable readState : value → W → result value * W.
Variable evaluate : value → W → result value * W.

Notation schema :=
  (dryRunMessageSchema messageSchema_shape messageSchema_unknown
     message_shape message_unknown).
Notation dryRunMessage :=
  (dryRunMessage messageSchema_shape messageSchema_unknown
     message_shape message_unknown).
Notation readUpTo := (readUpTo readState).
Notation messageMeta := (messageMeta loadMessageMeta).
Notation withModule := (withModule loadModule).
Notation dryRunWith :=
  (dryRunWith messageSchema_shape messageSchema_unknown message_shape
     message_unknown loadMessageMeta loadModule readState evaluate).
Notation state_eq := (dryRunWith_state messageSchema_shape messageSchema_unknown
     message_shape message_unknown loadMessageMeta loadModule readState evaluate).

(** The whole of a dry run whose first two steps, or whose module step,
    are rejected. *)
Lemma dryRunWith_stops_early a s e s1 :
  chain (messageMeta a) readUpTo s = (Throw e, s1) →
  dryRunWith a s = (Throw e, s1).
Proof.
  intros H1. unfold DryRun.dryRunWith, map. unfold chain in H1 |- *.
  destruct (messageMeta a s) as [[res|e'] s0]; [by rewrite H1|].
  by injection H1 as <- <-.
Qed.

Lemma dryRunWith_stops_at_module a s readStateRes s1 e s2 :
  chain (messageMeta a) readUpTo s = (Ok readStateRes, s1) →
  withModule readStateRes s1 = (Throw e, s2) →
  dryRunWith a s = (Throw e, s2).
Proof.
  intros H1 H2. unfold DryRun.dryRunWith, map, DryRun.inject.
  unfold chain in H1 |- *.
  destruct (messageMeta a s) as [[res|e'] s0]; [|done].
  by rewrite H1, H2.
Qed.

Lemma member_prop v k : v ≠ VUndefined → v ≠ VNull → member v k = Ok (prop k v).
Proof. intros. unfold prop. by destruct v. Qed.

Lemma readUpTo_run res s :
  res ≠ VUndefined → res ≠ VNull →
  readUpTo res s = invoke "readState" readState (Cases.request res) s.
Proof.
  intros Hu Hn. unfold DryRun.readUpTo, chain, attempt.
  by rewrite !member_prop.
Qed.

Lemma readUpTo_nullish res s :
  res = VUndefined ∨ res = VNull →
  ∃ e, readUpTo res s = (Throw e, s).
Proof. intros [-> | ->]; by eexists. Qed.

(** X2. When a [messageTxId] is given and the lookup of the message is
    rejected, the dry run is rejected with the same error, and the lookup is
    the only call made: neither [readState], the loader nor the evaluator
    is reached. *)
Theorem dryRun_surfaces_unknown_message a s e w :
  truthy (messageTxId a) = true →
  loadMessageMeta
    (obj [("processId", processId a); ("messageTxId", messageTxId a)])
    (world s) = (Throw e, w) →
  dryRunWith a s =
  (Throw e,
   State w (calls s
            ++ [Call "loadMessageMeta"
                  (obj [("processId", processId a);
                        ("messageTxId", messageTxId a)])])).
Proof.
  intros Ht Hmeta. apply dryRunWith_stops_early.
  unfold chain, DryRun.messageMeta. by rewrite Ht, invoke_run, Hmeta.
Qed.


(** X4. When [readState] attached no module and the module loader is
    rejected, the dry run is rejected with the loader's error, and the call
    of the loader is the last one: the evaluator is not reached. *)
Theorem dryRun_surfaces_loadModule_rejection a s readStateRes s1 module e w :
  chain (messageMeta a) readUpTo s = (Ok readStateRes, s1) →
  member readStateRes "module" = Ok module →
  truthy module = false →
  loadModule readStateRes (world s1) = (Throw e, w) →
  dryRunWith a s =
  (Throw e, State w (calls s1 ++ [Call "loadModule" readStateRes])).
Proof.
  intros H1 Hm Ht Hload.
  apply (dryRunWith_stops_at_module _ _ _ _ _ _ H1).
  by rewrite (withModule_run _ _ _ _ Hm), Ht, invoke_run, Hload.
Qed.

(** X5. When the evaluator is rejected, so is the dry run, with the same
    error. *)
Theorem dryRun_surfaces_evaluate_rejection a s readStateRes s1 ctx s2 e w :
  chain (messageMeta a) readUpTo s = (Ok readStateRes, s1) →
  withModule readStateRes s1 = (Ok ctx, s2) →
  evaluate
    (VObj (<["messages" := Readable_from (dryRunMessage a readStateRes)]>
             (spread ctx))) (world s2) = (Throw e, w) →
  (dryRunWith a s).1 = Throw e.
Proof.
  intros H1 H2 He.
  rewrite (dryRunWith_run _ _ _ _ _ _ _ _ _ _ _ _ _ _ H1 H2).
  cbv zeta. unfold literal. simpl. by rewrite He.
Qed.

(** X6. When the evaluator resolves with an object that has no [output],
    the dry run does not fail: [omit] of an undefined value is the empty
    object, and that is what the dry run resolves with. *)
Theorem dryRun_of_evaluation_without_output a s readStateRes s1 ctx s2 res w :
  chain (messageMeta a) readUpTo s = (Ok readStateRes, s1) →
  withModule readStateRes s1 = (Ok ctx, s2) →
  evaluate
    (VObj (<["messages" := Readable_from (dryRunMessage a readStateRes)]>
             (spread ctx))) (world s2) = (Ok res, w) →
  res ≠ VUndefined → res ≠ VNull →
  prop "output" res = VUndefined →
  (dryRunWith a s).1 = Ok (VObj ∅).
Proof.
  intros H1 H2 He Hu Hn Ho.
  rewrite (dryRunWith_run _ _ _ _ _ _ _ _ _ _ _ _ _ _ H1 H2).
  cbv zeta. unfold literal. simpl. rewrite He. simpl.
  by rewrite member_prop, Ho.
Qed.

(** X7. The [messageTxId] is tested for truthiness: a dry run with a falsy
    one (the empty string, [null], [0], [false]) is the dry run with none,
    at the latest point, with the same calls and the same result. *)
Theorem dryRun_falsy_message_id_is_no_message_id a s :
  truthy (messageTxId a) = false →
  dryRunWith a s = dryRunWith (Args (processId a) VUndefined (dryRun a)) s.
Proof.
  intros Ht. unfold DryRun.dryRunWith, map.
  do 2 (apply chain_ext_l; intros ?).
  unfold chain at 1 3. unfold DryRun.messageMeta. by rewrite Ht.
Qed.

(** X9. Every request a dry run makes of [readState] is exact, has no cron
    and has a string for ordinate, whatever the arguments and whatever the
    lookup of the message answered. *)
Theorem dryRun_reads_exactly a s x :
  x ∈ callsTo "readState" (calls (dryRunWith a s).2) →
  x ∈ callsTo "readState" (calls s) ∨
  (prop "exact" x = VBool true ∧
   prop "cron" x = VUndefined ∧
   ∃ ordinate, prop "ordinate" x = VStr ordinate).
Proof.
  rewrite dryRunWith_readState_calls.
  assert (∀ res s0,
    x ∈ callsTo "readState" (calls (readUpTo res s0).2) →
    x ∈ callsTo "readState" (calls s0) ∨
    (prop "exact" x = VBool true ∧ prop "cron" x = VUndefined ∧
     ∃ ordinate, prop "ordinate" x = VStr ordinate)) as Hread.
  { intros res s0.
    assert (res = VUndefined ∨ res = VNull
            ∨ (res ≠ VUndefined ∧ res ≠ VNull)) as [->|[->|[Hu Hn]]]
      by (destruct res; auto); [by left|by left|].
    rewrite readUpTo_run, invoke_run by done. cbn [snd calls].
    rewrite callsTo_snoc. simpl.
    intros [?| ->%list_elem_of_singleton]%elem_of_app; [by left|right].
    split; [done|]. split; [done|]. by eexists. }
  unfold chain, DryRun.messageMeta.
  destruct (truthy (messageTxId a)).
  - rewrite invoke_run.
    destruct (loadMessageMeta _ _) as [[res|e] w]; cbn [fst snd].
    + intros [Hx|Hx]%Hread; [|by right]. left.
      cbn [calls] in Hx. rewrite callsTo_snoc in Hx. simpl in Hx.
      by rewrite app_nil_r in Hx.
    + cbn [calls]. rewrite callsTo_snoc. simpl. rewrite app_nil_r. by left.
  - unfold Resolved. apply Hread.
Qed.

Notation inject :=
  (inject messageSchema_shape messageSchema_unknown message_shape
     message_unknown loadModule evaluate).

Lemma inject_calls a readStateRes s :
  ∃ extra (load : bool),
    calls (inject a readStateRes s).2 = calls s ++ extra ∧
    callee <$> extra `prefix_of`
      (if load then ["loadModule"] else []) ++ ["evaluate"].
Proof.
  unfold DryRun.inject, DryRun.withModule, chain, attempt.
  destruct (member readStateRes "module") as [module|e]; cbn [fst snd].
  2:{ exists [], true. rewrite app_nil_r. split; [done|apply prefix_nil]. }
  destruct (truthy module); cbn [negb]; unfold Resolved.
  - rewrite invoke_run. eexists [_], false. split; [done|]. by exists [].
  - rewrite !invoke_run. cbn [world calls].
    destruct (loadModule readStateRes (world s)) as [[ctx|e] w];
      cbn [fst snd calls].
    + rewrite invoke_run. cbn [snd calls]. eexists [_; _], true.
      rewrite <-app_assoc. split; [done|]. by exists [].
    + eexists [_], true. split; [done|]. by exists ["evaluate"].
Qed.

Lemma readUpTo_inject_calls a res s :
  ∃ extra (load : bool),
    calls (chain (readUpTo res) (inject a) s).2 = calls s ++ extra ∧
    callee <$> extra `prefix_of`
      ["readState"] ++ (if load then ["loadModule"] else []) ++ ["evaluate"].
Proof.
  assert (res = VUndefined ∨ res = VNull
          ∨ (res ≠ VUndefined ∧ res ≠ VNull)) as [->|[->|[Hu Hn]]]
    by (destruct res; auto).
  - exists [], true. rewrite app_nil_r. split; [done|apply prefix_nil].
  - exists [], true. rewrite app_nil_r. split; [done|apply prefix_nil].
  - unfold chain. rewrite readUpTo_run, invoke_run by done.
    destruct (readState _ _) as [[rs|e] w]; cbn [fst snd].
    + destruct (inject_calls a rs
                  (State w (calls s ++ [Call "readState" (Cases.request res)])))
        as (extra & load & -> & Hpre).
      cbn [calls]. eexists (_ :: extra), load.
      rewrite <-app_assoc. split; [done|]. simpl. by apply prefix_cons.
    + eexists [_], true. split; [done|].
      by exists ["loadModule"; "evaluate"].
Qed.

(** X1. Whatever the collaborators answer, a dry run adds to the calls
    already made a prefix of: the lookup of the message (only when a
    [messageTxId] is given), [readState], the module loader (at most once),
    the evaluator; in that order, each at most once, and nothing else. *)
Theorem dryRun_calls_in_order a s :
  ∃ extra load,
    calls (dryRunWith a s).2 = calls s ++ extra ∧
    callee <$> extra `prefix_of` Cases.pipeline a load.
Proof.
  unfold DryRun.dryRunWith. rewrite !map_state.
  unfold Cases.pipeline, DryRun.messageMeta. unfold chain at 1.
  destruct (truthy (messageTxId a)).
  - rewrite invoke_run.
    destruct (loadMessageMeta _ _) as [[res|e] w]; cbn [fst snd].
    + destruct (readUpTo_inject_calls a res
                  (State w (calls s ++ [Call "loadMessageMeta"
                     (obj [("processId", processId a);
                           ("messageTxId", messageTxId a)])])))
        as (extra & load & Heq & Hpre).
      cbn [calls] in Heq. rewrite <-app_assoc in Heq.
      eexists (_ :: extra), load.
      split; [exact Heq|]. simpl. by apply prefix_cons.
    + eexists [_], true. split; [done|]. simpl.
      by exists ["readState"; "loadModule"; "evaluate"].
  - unfold Resolved. apply readUpTo_inject_calls.
Qed.

Lemma dryRunInput_ext_overridden a a' readStateRes :
  processId a = processId a' →
  (∀ k, k ∉ overridden → spread (dryRun a) !! k = spread (dryRun a') !! k) →
  dryRunInput a readStateRes = dryRunInput a' readStateRes.
Proof.
  intros Hp Hd. unfold dryRunInput. rewrite Hp.
  destruct (member readStateRes "ordinate") as [ordinate|]; [|done].
  destruct (member readStateRes "from") as [from|]; [|done].
  destruct (member readStateRes "fromBlockHeight") as [height|]; [|done].
  destruct (member readStateRes "owner") as [owner|]; [|done].
  destruct (member readStateRes "tags") as [tags|]; [|done].
  assert (literal (spread (dryRun a))
            [("Id", VUndefined); ("Owner", VUndefined); ("From", VUndefined);
             ("Target", processId a'); ("Timestamp", from);
             ("Block-Height", height); ("Cron", VBool false);
             ("Read-Only", VBool true)]
          = literal (spread (dryRun a'))
              [("Id", VUndefined); ("Owner", VUndefined); ("From", VUndefined);
               ("Target", processId a'); ("Timestamp", from);
               ("Block-Height", height); ("Cron", VBool false);
               ("Read-Only", VBool true)]) as Heq.
  { apply map_eq. intros k. unfold literal. simpl.
    destruct (decide (k ∈ overridden)) as [Hin|Hout].
    - unfold overridden in Hin.
      repeat (apply elem_of_cons in Hin as [->|Hin]; [by simplify_map_eq|]).
      by apply elem_of_nil in Hin.
    - pose proof (Hd k Hout) as Hk. unfold overridden in Hout.
      repeat (apply not_elem_of_cons in Hout as [? Hout]).
      by rewrite !lookup_insert_ne. }
  unfold literal in *. simpl in *. by rewrite Heq.
Qed.

Lemma dryRunWith_ext a a' s :
  processId a = processId a' →
  messageTxId a = messageTxId a' →
  (∀ k, k ∉ overridden → spread (dryRun a) !! k = spread (dryRun a') !! k) →
  dryRunWith a s = dryRunWith a' s.
Proof.
  intros Hp Hm Hd. unfold DryRun.dryRunWith, map.
  do 2 (apply chain_ext_l; intros ?).
  assert (messageMeta a = messageMeta a') as ->.
  { unfold DryRun.messageMeta. by rewrite Hp, Hm. }
  do 2 (apply chain_ext; intros ? ?).
  unfold DryRun.inject, DryRun.dryRunMessage.
  by rewrite (dryRunInput_ext_overridden a a').
Qed.

(** X10. The payload cannot set any of the eight properties that the dry
    run sets itself ([Id], [Owner], [From], [Target], [Timestamp],
    [Block-Height], [Cron], [Read-Only]): two payloads that agree on every
    other property give the same calls, the same result and the same final
    state. *)
Theorem dryRun_independent_of_overridden_fields a a' s :
  processId a = processId a' →
  messageTxId a = messageTxId a' →
  (∀ k, k ∉ overridden → spread (dryRun a) !! k = spread (dryRun a') !! k) →
  dryRunWith a s = dryRunWith a' s.
Proof.
  intros Hp Hm Hd. unfold DryRun.dryRunWith, map.
  do 2 (apply chain_ext_l; intros ?).
  assert (messageMeta a = messageMeta a') as ->.
  { unfold DryRun.messageMeta. by rewrite Hp, Hm. }
  do 2 (apply chain_ext; intros ? ?).
  unfold DryRun.inject, DryRun.dryRunMessage.
  by rewrite (dryRunInput_ext_overridden a a').
Qed.

(** X11. A payload that is not an object with own properties (undefined,
    [null], a number, an empty object) is spread to nothing: the dry run is
    the one of the empty payload. *)
Theorem dryRun_of_payload_without_properties pid mid payload s :
  spread payload = ∅ →
  dryRunWith (Args pid mid payload) s = dryRunWith (Args pid mid (obj [])) s.
Proof.
  intros He. apply dryRunWith_ext; [done|done|].
  intros k _. simpl. by rewrite He.
Qed.

(** X8. With a [messageTxId], [readState] is asked once, for the process the
    log recorded for the message and up to the message's timestamp, the
    ordinate being the string of its nonce, without cron and exact. The
    nonce is a primitive value, a number as a rule: the string is then the
    one JavaScript prints for it. *)
Theorem dryRun_reads_recorded_point a s res w :
  truthy (messageTxId a) = true →
  loadMessageMeta
    (obj [("processId", processId a); ("messageTxId", messageTxId a)])
    (world s) = (Ok res, w) →
  res ≠ VUndefined → res ≠ VNull →
  primitive (prop "nonce" res) = true →
  callsTo "readState" (calls (dryRunWith a s).2) =
  callsTo "readState" (calls s)
  ++ [obj [("processId", prop "processId" res);
           ("to", prop "timestamp" res);
           ("ordinate", VStr (to_string (prop "nonce" res)));
           ("cron", VUndefined);
           ("exact", VBool true)]].
Proof.
  intros Ht Hmeta Hu Hn _.
  rewrite (dryRun_at_message_reads_recorded_point _ _ _ _ _ _ _ _ a s res w
             Ht Hmeta Hu Hn).
  reflexivity.
Qed.

(** X12. A message that the schema refuses does not stop the dry run before
    the evaluator: the evaluator is still called, after the module step, on
    the context with a stream that yields no message and fails with the
    schema's error. *)
Theorem dryRun_hands_schema_failure_to_evaluator a s readStateRes s1 ctx s2 e :
  chain (messageMeta a) readUpTo s = (Ok readStateRes, s1) →
  withModule readStateRes s1 = (Ok ctx, s2) →
  dryRunMessage a readStateRes = Throw e →
  calls (dryRunWith a s).2 =
  calls s2
  ++ [Call "evaluate"
        (VObj (<["messages" := VStream [] (Some e)]> (spread ctx)))].
Proof.
  intros H1 H2 He.
  rewrite (dryRunWith_run _ _ _ _ _ _ _ _ _ _ _ _ _ _ H1 H2).
  cbv zeta. by rewrite He.
Qed.
End more.

(** X13. Whatever [messageSchema] is, what [dryRunMessageSchema] returns has
    a message whose [Id], [Owner] and [From] are undefined. *)
Theorem dryRunMessageSchema_output_unsigned
    messageSchema_shape messageSchema_unknown message_shape message_unknown
    k input m :
  k ∈ ["Id"; "Owner"; "From"] →
  Zod.parse
    (dryRunMessageSchema messageSchema_shape messageSchema_unknown
       message_shape message_unknown) input = Ok m →
  prop k (prop "message" m) = VUndefined.
Proof.
  intros Hk Hparse%ZodFacts.parse_Ok. unfold dryRunMessageSchema in Hparse.
  set (inner := Zod.object _ message_unknown) in Hparse.
  assert (Zod.field "message" [("message", inner)] = Some inner) as Hm
    by reflexivity.
  assert (NoDup [("message", inner)].*1) as Hnd1
    by (by apply (bool_decide_unpack _)).
  destruct (ZodMore.object_get _ _ _ _ "message" inner
              (λ s, ZodMore.extend_uniform messageSchema_shape _ _ s _ Hnd1 Hm)
              (ZodMore.extend_key messageSchema_shape _ _ _ Hm) Hparse)
    as (props & y0 & _ & Hinner & ->).
  assert (Zod.field k
            [("Id", Zod.undefined); ("Owner", Zod.undefined);
             ("From", Zod.undefined)] = Some Zod.undefined) as Hf.
  { repeat (apply elem_of_cons in Hk as [->|Hk]; [done|]).
    by apply elem_of_nil in Hk. }
  assert (NoDup [("Id", Zod.undefined); ("Owner", Zod.undefined);
                 ("From", Zod.undefined)].*1) as Hnd2.
  { by apply (bool_decide_unpack _). }
  unfold inner in Hinner.
  destruct (ZodMore.object_get _ _ _ _ k Zod.undefined
              (λ s, ZodMore.extend_uniform message_shape _ _ s _ Hnd2 Hf)
              (ZodMore.extend_key message_shape _ _ _ Hf) Hinner)
    as (message & y1 & _ & Hid & ->).
  simpl in Hid. destruct (is_undefined (get message k)) eqn:Hu; [|discriminate].
  injection Hid as <-. by apply ZodMore.is_undefined_eq.
Qed.

(** X2 on a lookup that finds no message. *)
Lemma dryRun_surfaces_unknown_message_witness :
  truthy (messageTxId Sample.atMessage) = true ∧
  Cases.dryRun (Cases.down "message not found") Sample.loadModule
    Sample.readState Sample.evaluate Sample.atMessage
  = (Throw (HostError "message not found"),
     State ()
       [Call "loadMessageMeta"
          (obj [("processId", VStr "process-1");
                ("messageTxId", VStr "message-1")])]).
Proof.
  split; [reflexivity|].
  by apply (dryRun_surfaces_unknown_message Sample.messageSchema_shape
              Zod.strip Sample.message_shape Zod.strip
              (Cases.down "message not found") Sample.loadModule
              Sample.readState Sample.evaluate Sample.atMessage (State () [])).
Defined.


Lemma latest_read :
  chain (messageMeta Sample.loadMessageMeta Sample.latest)
    (readUpTo Sample.readState) (State () []) = (Ok Cases.latestAnswer, Cases.latestRead).
Proof. vm_compute. reflexivity. Qed.

Lemma latest_loaded :
  withModule Sample.loadModule Cases.latestAnswer Cases.latestRead
  = (Ok (Sample.loaded (VStr "process-1") (VStr "undefined")), Cases.latestLoaded).
Proof. vm_compute. reflexivity. Qed.

(** X4 on an answer from the cache and a module that is not found. *)
Lemma dryRun_surfaces_loadModule_rejection_witness :
  chain (messageMeta Sample.loadMessageMeta Sample.latest)
    (readUpTo Sample.readState) (State () []) = (Ok Cases.latestAnswer, Cases.latestRead) ∧
  member Cases.latestAnswer "module" = Ok VUndefined ∧
  Cases.dryRun Sample.loadMessageMeta (Cases.down "module not found")
    Sample.readState Sample.evaluate Sample.latest
  = (Throw (HostError "module not found"), Cases.latestLoaded).
Proof.
  split; [exact latest_read|]. split; [reflexivity|].
  by apply (dryRun_surfaces_loadModule_rejection Sample.messageSchema_shape
              Zod.strip Sample.message_shape Zod.strip
              Sample.loadMessageMeta (Cases.down "module not found")
              Sample.readState Sample.evaluate Sample.latest (State () [])
              Cases.latestAnswer Cases.latestRead VUndefined _ () latest_read).
Defined.

(** X5 on an evaluation that runs out of memory. *)
Lemma dryRun_surfaces_evaluate_rejection_witness :
  chain (messageMeta Sample.loadMessageMeta Sample.latest)
    (readUpTo Sample.readState) (State () []) = (Ok Cases.latestAnswer, Cases.latestRead) ∧
  withModule Sample.loadModule Cases.latestAnswer Cases.latestRead
    = (Ok (Sample.loaded (VStr "process-1") (VStr "undefined")), Cases.latestLoaded) ∧
  (Cases.dryRun Sample.loadMessageMeta Sample.loadModule Sample.readState
     (Cases.down "out of memory") Sample.latest).1
  = Throw (HostError "out of memory").
Proof.
  split; [exact latest_read|]. split; [exact latest_loaded|].
  by apply (dryRun_surfaces_evaluate_rejection Sample.messageSchema_shape
              Zod.strip Sample.message_shape Zod.strip
              Sample.loadMessageMeta Sample.loadModule Sample.readState
              (Cases.down "out of memory") Sample.latest (State () [])
              _ _ _ _ _ () latest_read latest_loaded).
Defined.

(** X6 on an evaluator that resolves with the empty object. *)
Lemma dryRun_of_evaluation_without_output_witness :
  chain (messageMeta Sample.loadMessageMeta Sample.latest)
    (readUpTo Sample.readState) (State () []) = (Ok Cases.latestAnswer, Cases.latestRead) ∧
  withModule Sample.loadModule Cases.latestAnswer Cases.latestRead
    = (Ok (Sample.loaded (VStr "process-1") (VStr "undefined")), Cases.latestLoaded) ∧
  prop "output" (obj []) = VUndefined ∧
  (Cases.dryRun Sample.loadMessageMeta Sample.loadModule Sample.readState
     Cases.evaluateNothing Sample.latest).1
  = Ok (VObj ∅).
Proof.
  split; [exact latest_read|]. split; [exact latest_loaded|].
  split; [reflexivity|].
  by apply (dryRun_of_evaluation_without_output Sample.messageSchema_shape
              Zod.strip Sample.message_shape Zod.strip
              Sample.loadMessageMeta Sample.loadModule Sample.readState
              Cases.evaluateNothing Sample.latest (State () [])
              _ _ _ _ (obj []) () latest_read latest_loaded).
Defined.

(** X7 on the empty string. *)
Lemma dryRun_falsy_message_id_is_no_message_id_witness :
  truthy (messageTxId Cases.emptyId) = false ∧
  Sample.dryRun Sample.readState Cases.emptyId
  = Sample.dryRun Sample.readState Sample.latest.
Proof.
  split; [reflexivity|].
  by apply (dryRun_falsy_message_id_is_no_message_id
              Sample.messageSchema_shape Zod.strip Sample.message_shape
              Zod.strip Sample.loadMessageMeta Sample.loadModule
              Sample.readState Sample.evaluate Cases.emptyId).
Defined.

(** X9 on the request of a dry run at a message. *)
Lemma dryRun_reads_exactly_witness :
  Cases.request Cases.latestPoint
    ∈ callsTo "readState" (calls (Sample.dryRun Sample.readState Sample.latest).2) ∧
  prop "exact" (Cases.request Cases.latestPoint) = VBool true ∧
  prop "cron" (Cases.request Cases.latestPoint) = VUndefined ∧
  ∃ ordinate, prop "ordinate" (Cases.request Cases.latestPoint) = VStr ordinate.
Proof.
  assert (Cases.request Cases.latestPoint
            ∈ callsTo "readState"
                (calls (Sample.dryRun Sample.readState Sample.latest).2)) as Hin.
  { assert (callsTo "readState"
              (calls (Sample.dryRun Sample.readState Sample.latest).2)
            = [Cases.request Cases.latestPoint]) as -> by (vm_compute; reflexivity).
    by apply list_elem_of_singleton. }
  split; [exact Hin|].
  destruct (dryRun_reads_exactly Sample.messageSchema_shape Zod.strip
              Sample.message_shape Zod.strip Sample.loadMessageMeta
              Sample.loadModule Sample.readState Sample.evaluate
              Sample.latest (State () []) _ Hin) as [Hnil|Hreq].
  - by apply elem_of_nil in Hnil.
  - exact Hreq.
Defined.

Lemma overriding_only_overridden k :
  k ∉ overridden →
  spread (dryRun Cases.overriding) !! k = spread (dryRun Sample.latest) !! k.
Proof.
  intros Hk. unfold overridden in Hk.
  repeat (apply not_elem_of_cons in Hk as [? Hk]).
  unfold Cases.overriding, Sample.latest, Sample.ping, obj, literal. simpl.
  destruct (decide (k = "Data")) as [->|?]; [reflexivity|].
  by rewrite !lookup_insert_ne.
Qed.

(** X10 on a payload that sets all eight properties. *)
Lemma dryRun_independent_of_overridden_fields_witness :
  processId Cases.overriding = processId Sample.latest ∧
  messageTxId Cases.overriding = messageTxId Sample.latest ∧
  Sample.dryRun Sample.readState Cases.overriding
  = Sample.dryRun Sample.readState Sample.latest.
Proof.
  split; [reflexivity|]. split; [reflexivity|].
  apply dryRun_independent_of_overridden_fields;
    [reflexivity|reflexivity|exact overriding_only_overridden].
Defined.

(** X11 on a payload that is a number. *)
Lemma dryRun_of_payload_without_properties_witness :
  spread VUndefined = ∅ ∧
  Sample.dryRun Sample.readState Cases.noPayload
  = Sample.dryRun Sample.readState
      (Args (VStr "process-1") VUndefined (obj [])).
Proof.
  split; [reflexivity|].
  by apply (dryRun_of_payload_without_properties Sample.messageSchema_shape
              Zod.strip Sample.message_shape Zod.strip
              Sample.loadMessageMeta Sample.loadModule Sample.readState
              Sample.evaluate).
Defined.

Lemma bare_read :
  chain (messageMeta Sample.loadMessageMeta Sample.latest)
    (readUpTo Cases.readStateBare) (State () []) = (Ok Cases.bareAnswer, Cases.bareRead).
Proof. vm_compute. reflexivity. Qed.

Lemma bare_loaded :
  withModule Sample.loadModule Cases.bareAnswer Cases.bareRead
  = (Ok (VObj (literal (spread Cases.bareAnswer) [("module", VBuffer [Byte.x00])])),
     Cases.bareLoaded).
Proof. vm_compute. reflexivity. Qed.

Lemma bare_refused :
  Cases.parsedMessage Sample.latest Cases.bareAnswer
  = Throw (Cases.thrown (Cases.parsedMessage Sample.latest Cases.bareAnswer)).
Proof. vm_compute. reflexivity. Qed.

(** X12 on an answer of [readState] without [from]: the timestamp is refused. *)
Lemma dryRun_hands_schema_failure_to_evaluator_witness :
  chain (messageMeta Sample.loadMessageMeta Sample.latest)
    (readUpTo Cases.readStateBare) (State () []) = (Ok Cases.bareAnswer, Cases.bareRead) ∧
  withModule Sample.loadModule Cases.bareAnswer Cases.bareRead
  = (Ok (VObj (literal (spread Cases.bareAnswer) [("module", VBuffer [Byte.x00])])),
     Cases.bareLoaded) ∧
  Cases.parsedMessage Sample.latest Cases.bareAnswer
  = Throw (Cases.thrown (Cases.parsedMessage Sample.latest Cases.bareAnswer)) ∧
  callee <$> calls
    (Cases.dryRun Sample.loadMessageMeta Sample.loadModule
       Cases.readStateBare Sample.evaluate Sample.latest).2
  = ["readState"; "loadModule"; "evaluate"].
Proof.
  split; [exact bare_read|]. split; [exact bare_loaded|].
  split; [exact bare_refused|].
  unfold Cases.dryRun.
  by rewrite (dryRun_hands_schema_failure_to_evaluator
                Sample.messageSchema_shape Zod.strip Sample.message_shape
                Zod.strip Sample.loadMessageMeta Sample.loadModule
                Cases.readStateBare Sample.evaluate Sample.latest
                (State () []) _ _ _ _ _ bare_read bare_loaded bare_refused).
Defined.

(** X13 on the message of a ping. *)
Lemma dryRunMessageSchema_output_unsigned_witness :
  "Owner" ∈ ["Id"; "Owner"; "From"] ∧
  Cases.parsedMessage Sample.forged Cases.latestAnswer
  = Ok (Cases.resolved (Cases.parsedMessage Sample.forged Cases.latestAnswer)) ∧
  prop "Owner"
    (prop "message" (Cases.resolved (Cases.parsedMessage Sample.forged Cases.latestAnswer)))
  = VUndefined.
Proof.
  assert ("Owner" ∈ ["Id"; "Owner"; "From"]) as Hk by (right; left).
  assert (Zod.parse
            (dryRunMessageSchema Sample.messageSchema_shape Zod.strip
               Sample.message_shape Zod.strip)
            (Cases.resolved (dryRunInput Sample.forged Cases.latestAnswer))
          = Ok (Cases.resolved (Cases.parsedMessage Sample.forged Cases.latestAnswer))) as Hp
    by (vm_compute; reflexivity).
  split; [exact Hk|]. split; [vm_compute; reflexivity|].
  exact (dryRunMessageSchema_output_unsigned _ _ _ _ _ _ _ Hk Hp).
Defined.

(** X8 on the first message of the log, and on a message whose nonce is
    1e21. *)
Lemma dryRun_reads_recorded_point_witness :
  truthy (messageTxId Sample.atMessage) = true ∧
  prop "nonce" Cases.messageMetaAnswer = VNum "7" ∧
  Sample.loadMessageMeta
    (obj [("processId", VStr "process-1"); ("messageTxId", VStr "message-1")])
    () = (Ok Cases.messageMetaAnswer, ()) ∧
  callsTo "readState"
    (calls (Sample.dryRun Sample.readState Sample.atMessage).2)
  = [obj [("processId", VStr "process-1"); ("to", VNum "1700000000");
          ("ordinate", VStr "7"); ("cron", VUndefined);
          ("exact", VBool true)]] ∧
  callsTo "readState"
    (calls (Cases.dryRun (Cases.recorded Cases.farAnswer) Sample.loadModule
              Sample.readState Sample.evaluate Sample.atMessage).2)
  = [obj [("processId", VStr "process-1"); ("to", VNum "1700000000");
          ("ordinate", VStr "1e+21"); ("cron", VUndefined);
          ("exact", VBool true)]].
Proof.
  split; [reflexivity|]. split; [reflexivity|]. split; [reflexivity|].
  split.
  - by apply (dryRun_reads_recorded_point Sample.messageSchema_shape
                Zod.strip Sample.message_shape Zod.strip
                Sample.loadMessageMeta Sample.loadModule Sample.readState
                Sample.evaluate Sample.atMessage (State () [])
                Cases.messageMetaAnswer ()).
  - by apply (dryRun_reads_recorded_point Sample.messageSchema_shape
                Zod.strip Sample.message_shape Zod.strip
                (Cases.recorded Cases.farAnswer) Sample.loadModule
                Sample.readState Sample.evaluate Sample.atMessage
                (State () []) Cases.farAnswer ()).
Defined.

End DryRunMore.

(** ** Loading the source *)

Module LoadSrcMore.
Import Js Async LoadSrc AsyncFacts LoadSrcFacts.

(** X14. What [transactionSchema] returns is accepted by it and returned
    unchanged: the parsed transaction holds the owner's address and the
    name and value of each tag, and nothing else. *)
Theorem transactionSchema_parse_idempotent tx tx' :
  Zod.parse transactionSchema tx = Ok tx' →
  Zod.parse transactionSchema tx' = Ok tx'.
Proof.
  intros (address & tags & ->)%parse_transactionSchema.
  apply parse_transaction.
Qed.

Lemma parse_srcSchema_Ok props owner :
  get props "owner" = VStr owner →
  truthy (get props "src") = true →
  Zod.parse srcSchema (VObj props)
  = Ok (VObj (<["owner" := VStr owner]>
                (<["src" := get props "src"]> (Zod.defined props)))).
Proof.
  intros Ho Hs. unfold Zod.parse, srcSchema.
  cbn [Zod.safeParse Zod.properties Zod.parseFields]. rewrite Ho, Hs.
  assert (is_undefined (get props "src") = false) as ->
    by (by destruct (get props "src")).
  simpl. do 2 f_equal. apply map_eq. intros k.
  destruct (decide (k = "owner")) as [->|H1].
  { rewrite lookup_insert_eq. apply lookup_union_Some_l. by simplify_map_eq. }
  destruct (decide (k = "src")) as [->|H2].
  { rewrite lookup_insert_ne, lookup_insert_eq by done.
    apply lookup_union_Some_l. by simplify_map_eq. }
  rewrite lookup_union_r by (by simplify_map_eq).
  rewrite !lookup_insert_ne by done.
  rewrite !lookup_defined, lookup_extraKeys.
  rewrite bool_decide_eq_false_2; [done|]. simpl.
  intros [->|[->|?%elem_of_nil]%elem_of_cons]%elem_of_cons; done.
Qed.

Lemma parse_srcSchema_falsy props owner :
  get props "owner" = VStr owner →
  truthy (get props "src") = false →
  Zod.parse srcSchema (VObj props)
  = Throw (ZodError [Issue "custom" ["src"] "contract source must be defined"]).
Proof.
  intros Ho Hs. unfold Zod.parse, srcSchema.
  cbn [Zod.safeParse Zod.properties Zod.parseFields]. by rewrite Ho, Hs.
Qed.

Section more.
Context {W Response : Type}.
Variable loadTransactionMeta : value → W → result value * W.
Variable loadTransactionData : value → W → result Response * W.
Variable arrayBuffer : Response → W → result value * W.

Notation getContractMetaWith := (getContractMetaWith loadTransactionMeta).
Notation getSourceBufferWith :=
  (getSourceBufferWith loadTransactionData arrayBuffer).
Notation loadSourceWith :=
  (loadSourceWith loadTransactionMeta loadTransactionData arrayBuffer).

(** X15. When the lookup of the transaction is rejected, loading the source
    is rejected with the same error, and no data is fetched. *)
Theorem loadSource_surfaces_unknown_transaction ctx id s e w :
  member ctx "id" = Ok id →
  loadTransactionMeta id (world s) = (Throw e, w) →
  loadSourceWith ctx s =
  (Throw e, State w (calls s ++ [Call "loadTransactionMeta" id])).
Proof.
  intros Hid Hmeta.
  unfold LoadSrc.loadSourceWith, LoadSrc.getContractMetaWith, map, chain,
    attempt.
  by rewrite Hid, invoke_run, Hmeta.
Qed.

(** X16. When the transaction does not fit [transactionSchema], loading the
    source is rejected with the schema's error, and no data is fetched. *)
Theorem loadSource_rejects_malformed_transaction ctx id s tx w e :
  member ctx "id" = Ok id →
  loadTransactionMeta id (world s) = (Ok tx, w) →
  Zod.parse transactionSchema tx = Throw e →
  loadSourceWith ctx s =
  (Throw e, State w (calls s ++ [Call "loadTransactionMeta" id])).
Proof.
  intros Hid Hmeta Hparse.
  unfold LoadSrc.loadSourceWith, LoadSrc.getContractMetaWith, map, chain,
    attempt.
  rewrite Hid, invoke_run, Hmeta. cbn [fst snd]. by rewrite Hparse.
Qed.

Lemma source_id srcId :
  srcId ≠ "" →
  match srcId with
  | "" => None
  | _ => Some srcId
  end = Some srcId.
Proof. by destruct srcId. Qed.

Lemma loadSourceWith_fetch ctx id s tx w address tags srcId :
  member ctx "id" = Ok id →
  loadTransactionMeta id (world s) = (Ok tx, w) →
  Zod.parse transactionSchema tx = Ok (transaction address tags) →
  stopped tags = None →
  lastTag "Contract-Src" tags = Some srcId →
  srcId ≠ "" →
  loadSourceWith ctx s =
  map (getSourceBufferWith (VStr srcId))
    (λ src, Zod.parse srcSchema
              (VObj (literal (spread ctx)
                       [("src", src); ("owner", VStr address)])))
    (State w (calls s ++ [Call "loadTransactionMeta" id])).
Proof.
  intros Hid Hmeta Hparse Hstop Hlast Hne.
  rewrite (loadSourceWith_run _ _ _ _ _ _ _ _ _ _ Hid Hmeta Hparse).
  cbv zeta. rewrite Hstop, Hlast. by destruct srcId.
Qed.

(** X17. When no tag stops the [reduce] over the tags and the fetch of the
    source's data is rejected, loading the source is rejected with the same
    error; the two calls made are the lookup of the transaction and the
    fetch, of the last [Contract-Src] value. *)
Theorem loadSource_surfaces_failed_fetch ctx id s tx w address tags srcId e w' :
  member ctx "id" = Ok id →
  loadTransactionMeta id (world s) = (Ok tx, w) →
  Zod.parse transactionSchema tx = Ok (transaction address tags) →
  stopped tags = None →
  lastTag "Contract-Src" tags = Some srcId →
  srcId ≠ "" →
  loadTransactionData (VStr srcId) w = (Throw e, w') →
  loadSourceWith ctx s =
  (Throw e,
   State w' (calls s ++ [Call "loadTransactionMeta" id;
                         Call "loadTransactionData" (VStr srcId)])).
Proof.
  intros Hid Hmeta Hparse Hstop Hlast Hne Hdata.
  rewrite (loadSourceWith_fetch _ _ _ _ _ _ _ _ Hid Hmeta Hparse Hstop Hlast
             Hne).
  unfold map, LoadSrc.getSourceBufferWith, chain.
  rewrite invoke_run. cbn [world calls]. rewrite Hdata. cbn [fst snd].
  by rewrite <-app_assoc.
Qed.

(** X18. When the transaction is found, no tag stops the [reduce] over its
    tags, it has a [Contract-Src] and its data is fetched and read, loading
    the source resolves with the defined properties of the context (one
    named [__proto__] aside), [src] set to the bytes read and [owner] to
    the address of the transaction's owner; unless what was read is falsy,
    in which case it is rejected with "contract source must be defined".
    The calls are the lookup and the fetch, in that order. *)
Theorem loadSource_returns_context_with_source
    ctx id s tx w address tags srcId res w' src w'' :
  member ctx "id" = Ok id →
  loadTransactionMeta id (world s) = (Ok tx, w) →
  Zod.parse transactionSchema tx = Ok (transaction address tags) →
  stopped tags = None →
  lastTag "Contract-Src" tags = Some srcId →
  srcId ≠ "" →
  loadTransactionData (VStr srcId) w = (Ok res, w') →
  arrayBuffer res w' = (Ok src, w'') →
  loadSourceWith ctx s =
  (if truthy src
   then Ok (VObj (<["owner" := VStr address]>
                    (<["src" := src]> (Zod.defined (spread ctx)))))
   else Throw (ZodError
                 [Issue "custom" ["src"] "contract source must be defined"]),
   State w'' (calls s ++ [Call "loadTransactionMeta" id;
                          Call "loadTransactionData" (VStr srcId)])).
Proof.
  intros Hid Hmeta Hparse Hstop Hlast Hne Hdata Hbody.
  rewrite (loadSourceWith_fetch _ _ _ _ _ _ _ _ Hid Hmeta Hparse Hstop Hlast
             Hne).
  unfold map, LoadSrc.getSourceBufferWith, chain, fromPromise, attempt.
  rewrite invoke_run. cbn [world calls]. rewrite Hdata. cbn [fst snd world calls].
  rewrite Hbody. rewrite <-app_assoc. f_equal.
  unfold literal. cbn [foldl fst snd].
  set (props := <["owner":=VStr address]> (<["src":=src]> (spread ctx))).
  assert (get props "owner" = VStr address) as Ho
    by (unfold get, props; by rewrite lookup_insert_eq).
  assert (get props "src" = src) as Hs
    by (unfold get, props; by rewrite lookup_insert_ne, lookup_insert_eq).
  destruct (truthy src) eqn:Ht.
  - rewrite (parse_srcSchema_Ok props address Ho) by (by rewrite Hs).
    rewrite Hs. do 2 f_equal. apply map_eq. intros k.
    destruct (decide (k = "owner")) as [->|H1]; [by rewrite !lookup_insert_eq|].
    destruct (decide (k = "src")) as [->|H2];
      [by rewrite !(lookup_insert_ne _ "owner"), !lookup_insert_eq|].
    rewrite !lookup_insert_ne, !lookup_defined by done.
    unfold props. by rewrite !lookup_insert_ne.
  - by rewrite (parse_srcSchema_falsy props address Ho) by (by rewrite Hs).
Qed.

(** X19. A [src] or an [owner] that the context already has plays no part:
    two contexts with the same [id] that agree on every other property give
    the same calls, result and final state. *)
Theorem loadSource_ignores_source_and_owner_of_context ctx ctx' s :
  member ctx "id" = member ctx' "id" →
  (∀ k, k ≠ "src" → k ≠ "owner" → spread ctx !! k = spread ctx' !! k) →
  loadSourceWith ctx s = loadSourceWith ctx' s.
Proof.
  intros Hid Hk. unfold LoadSrc.loadSourceWith, map.
  apply chain_ext_l. intros s'. rewrite Hid.
  do 5 (apply chain_ext; intros ? ?).
  unfold attempt. do 3 f_equal. apply map_eq. intros k.
  unfold literal. simpl.
  destruct (decide (k = "owner")) as [->|H1]; [by rewrite !lookup_insert_eq|].
  destruct (decide (k = "src")) as [->|H2];
    [by rewrite !(lookup_insert_ne _ "owner"), !lookup_insert_eq|].
  rewrite !lookup_insert_ne by done. by apply Hk.
Qed.
End more.

(** X14 on the stored transaction of the first process. *)
Lemma transactionSchema_parse_idempotent_witness :
  Zod.parse transactionSchema (Sample.stored (VStr "process-1"))
    = Ok (transaction "owner-1" Sample.twice) ∧
  Zod.parse transactionSchema (transaction "owner-1" Sample.twice)
    = Ok (transaction "owner-1" Sample.twice).
Proof.
  assert (Zod.parse transactionSchema (Sample.stored (VStr "process-1"))
          = Ok (transaction "owner-1" Sample.twice)) as H
    by (vm_compute; reflexivity).
  split; [exact H|]. exact (transactionSchema_parse_idempotent _ _ H).
Defined.

(** X15 on a process that is not stored. *)
Lemma loadSource_surfaces_unknown_transaction_witness :
  member (obj [("id", VStr "process-9")]) "id" = Ok (VStr "process-9") ∧
  Cases.loadSource Sample.arrayBuffer (obj [("id", VStr "process-9")])
  = (Throw (HostError "not found"),
     State () [Call "loadTransactionMeta" (VStr "process-9")]).
Proof.
  split; [reflexivity|].
  by apply (loadSource_surfaces_unknown_transaction Cases.loadTransactionMeta
              Sample.loadTransactionData Sample.arrayBuffer
              (obj [("id", VStr "process-9")]) (VStr "process-9")
              (State () [])).
Defined.

(** X16 on a transaction without tags. *)
Lemma loadSource_rejects_malformed_transaction_witness :
  Cases.loadTransactionMeta (VStr "process-4") () = (Ok Cases.malformed, ()) ∧
  Zod.parse transactionSchema Cases.malformed
    = Throw (ZodError [Issue "invalid_type" ["tags"] "Required"]) ∧
  Cases.loadSource Sample.arrayBuffer (obj [("id", VStr "process-4")])
  = (Throw (ZodError [Issue "invalid_type" ["tags"] "Required"]),
     State () [Call "loadTransactionMeta" (VStr "process-4")]).
Proof.
  assert (Zod.parse transactionSchema Cases.malformed
          = Throw (ZodError [Issue "invalid_type" ["tags"] "Required"])) as H
    by (vm_compute; reflexivity).
  split; [reflexivity|]. split; [exact H|].
  by apply (loadSource_rejects_malformed_transaction Cases.loadTransactionMeta
              Sample.loadTransactionData Sample.arrayBuffer
              (obj [("id", VStr "process-4")]) (VStr "process-4")
              (State () []) Cases.malformed ()).
Defined.

Lemma fifth_parsed :
  Zod.parse transactionSchema
    (transaction "owner-5" [("Contract-Src", "source-5")])
  = Ok (transaction "owner-5" [("Contract-Src", "source-5")]).
Proof. apply parse_transaction. Qed.

(** X17 on a source that is not stored. *)
Lemma loadSource_surfaces_failed_fetch_witness :
  stopped [("Contract-Src", "source-5")] = None ∧
  lastTag "Contract-Src" [("Contract-Src", "source-5")] = Some "source-5" ∧
  Sample.loadTransactionData (VStr "source-5") ()
    = (Throw (HostError "not found"), ()) ∧
  Cases.loadSource Sample.arrayBuffer (obj [("id", VStr "process-5")])
  = (Throw (HostError "not found"),
     State () [Call "loadTransactionMeta" (VStr "process-5");
               Call "loadTransactionData" (VStr "source-5")]).
Proof.
  split; [reflexivity|]. split; [reflexivity|]. split; [reflexivity|].
  by apply (loadSource_surfaces_failed_fetch Cases.loadTransactionMeta
              Sample.loadTransactionData Sample.arrayBuffer
              (obj [("id", VStr "process-5")]) (VStr "process-5")
              (State () []) _ () "owner-5" [("Contract-Src", "source-5")]
              "source-5" (HostError "not found") ()
              eq_refl eq_refl fifth_parsed).
Defined.

Lemma first_parsed :
  Zod.parse transactionSchema (Sample.stored (VStr "process-1"))
  = Ok (transaction "owner-1" Sample.twice).
Proof. vm_compute. reflexivity. Qed.

(** X18 on the first process, with its source and with an empty body. *)
Lemma loadSource_returns_context_with_source_witness :
  stopped Sample.twice = None ∧
  lastTag "Contract-Src" Sample.twice = Some "source-2" ∧
  Cases.loadSource Sample.arrayBuffer Sample.context
  = (Ok Sample.withSource,
     State () [Call "loadTransactionMeta" (VStr "process-1");
               Call "loadTransactionData" (VStr "source-2")]) ∧
  Cases.loadSource Cases.noBody Sample.context
  = (Throw (ZodError
              [Issue "custom" ["src"] "contract source must be defined"]),
     State () [Call "loadTransactionMeta" (VStr "process-1");
               Call "loadTransactionData" (VStr "source-2")]).
Proof.
  assert (lastTag "Contract-Src" Sample.twice = Some "source-2") as Hl
    by (vm_compute; reflexivity).
  assert (stopped Sample.twice = None) as Hn by (vm_compute; reflexivity).
  split; [exact Hn|]. split; [exact Hl|]. split.
  - unfold Cases.loadSource.
    rewrite (loadSource_returns_context_with_source Cases.loadTransactionMeta
               Sample.loadTransactionData Sample.arrayBuffer Sample.context
               (VStr "process-1") (State () []) _ () "owner-1" Sample.twice
               "source-2" [Byte.x00; Byte.x61; Byte.x73; Byte.x6d] ()
               (VBuffer [Byte.x00; Byte.x61; Byte.x73; Byte.x6d]) ()
               eq_refl eq_refl first_parsed Hn Hl ltac:(discriminate)
               eq_refl eq_refl).
    vm_compute. reflexivity.
  - unfold Cases.loadSource.
    by rewrite (loadSource_returns_context_with_source Cases.loadTransactionMeta
               Sample.loadTransactionData Cases.noBody Sample.context
               (VStr "process-1") (State () []) _ () "owner-1" Sample.twice
               "source-2" [Byte.x00; Byte.x61; Byte.x73; Byte.x6d] ()
               VNull ()
               eq_refl eq_refl first_parsed Hn Hl ltac:(discriminate)
               eq_refl eq_refl).
Defined.

Lemma relabelled_elsewhere k :
  k ≠ "src" → k ≠ "owner" →
  spread Cases.relabelled !! k = spread Sample.context !! k.
Proof.
  intros H1 H2. unfold Cases.relabelled, Sample.context, obj, literal. simpl.
  by rewrite !(lookup_insert_ne _ "src"), !(lookup_insert_ne _ "owner").
Qed.

(** X19 on a context that comes with a source and an owner. *)
Lemma loadSource_ignores_source_and_owner_of_context_witness :
  member Cases.relabelled "id" = member Sample.context "id" ∧
  Sample.loadSource Cases.relabelled = Sample.loadSource Sample.context.
Proof.
  split; [reflexivity|].
  apply loadSource_ignores_source_and_owner_of_context;
    [reflexivity|exact relabelled_elsewhere].
Defined.

End LoadSrcMore.
